(** * Carbon-credit marketplace: settlement, quorum gate and ledger

    A shallow embedding of [backend/database.js], [backend/pbft.js] and
    [backend/server.js], together with a model of the hash-chained ledger
    the server appends to, and the properties of the specification proved
    (or refuted) on it.

    Conventions.
    - A JavaScript number is a rational [Q], and [NaN] does not occur
      (request bodies carry numbers, on which [parseFloat] is the
      identity).  The rounding of IEEE doubles is not modelled: [a + b]
      stands for the one addition the code performs, and a statement
      about balances either names the additions performed, in their
      order, or is restricted to whole numbers up to [2^53], on which
      the addition of doubles is the addition of rationals.
    - A JavaScript [Map] with string keys is a [gmap string _]; the
      insertion order that [Map.values()] follows is not modelled.
    - The clock ([new Date().toISOString()]), the identifier source
      ([uuidv4()]) and [Math.random()] are inputs of the operation that
      reads them. *)

From Stdlib Require Import QArith ZArith List Lia Lqa Ascii String.
From stdpp Require Import gmap strings list fin_maps.

Close Scope Q_scope.
Open Scope string_scope.
Open Scope list_scope.

(* ===================================================================== *)
(** * JavaScript values                                                   *)
(* ===================================================================== *)

(** [!x] for a number: only zero is falsy. *)
Definition falsy_number (x : Q) : bool := Qeq_bool x 0.

(** [!x] for a string: only the empty string is falsy. *)
Definition falsy_string (s : string) : bool := bool_decide (s = "").

(** [!x] for an optional field of a request body ([undefined] is falsy). *)
Definition missing {A} (falsy : A -> bool) (x : option A) : bool :=
  match x with
  | None => true
  | Some v => falsy v
  end.

(** [a > b] on numbers. *)
Definition Qgtb (a b : Q) : bool := negb (Qle_bool a b).

(* ===================================================================== *)
(** * backend/database.js                                                 *)
(* ===================================================================== *)

Record User := mkUser {
  username : string;
  password : string;
  role : string;
  balance : Q
}.

Inductive Status := pending | verified | failed.

#[global] Instance Status_eq_dec : EqDecision Status.
Proof. solve_decision. Defined.

Record Listing := mkListing {
  id : string;
  seller : string;
  amount : Q;
  price : Q;
  status : Status;
  createdAt : string
}.

(** The [transactions] map of the class is never read or written. *)
Record Database := mkDatabase {
  users : gmap string User;
  listings : gmap string Listing
}.

Definition set_users (f : gmap string User -> gmap string User) (db : Database) : Database :=
  mkDatabase (f (users db)) (listings db).

Definition set_listings (f : gmap string Listing -> gmap string Listing) (db : Database) : Database :=
  mkDatabase (users db) (f (listings db)).

Definition initializeTestData (db : Database) : Database :=
  set_users (fun us =>
    <["buyer1" := mkUser "buyer1" "password123" "buyer" 0]>
      (<["seller1" := mkUser "seller1" "password123" "seller" 0]> us)) db.

Definition new_Database : Database :=
  initializeTestData (mkDatabase ∅ ∅).

Record RegisterResult := mkRegisterResult {
  reg_success : bool;
  reg_message : string
}.

Definition registerUser (username password role : string) (db : Database)
  : RegisterResult * Database :=
  if bool_decide (is_Some (users db !! username)) then
    (mkRegisterResult false "Username already exists", db)
  else if negb (bool_decide (role ∈ ["buyer"; "seller"])) then
    (mkRegisterResult false "Invalid role", db)
  else
    (mkRegisterResult true "User registered successfully",
     set_users (insert username (mkUser username password role 0)) db).

Definition authenticateUser (name pass : string) (db : Database) : option User :=
  match users db !! name with
  | Some user => if bool_decide (password user = pass) then Some user else None
  | None => None
  end.

Definition getUser (username : string) (db : Database) : option User :=
  users db !! username.

Definition add_balance (amount : Q) (u : User) : User :=
  mkUser (username u) (password u) (role u) (balance u + amount)%Q.

(** [user.balance += amount] on the record stored in the map. *)
Definition updateUserBalance (username : string) (amount : Q) (db : Database)
  : bool * Database :=
  match users db !! username with
  | Some user => (true, set_users (insert username (add_balance amount user)) db)
  | None => (false, db)
  end.

Definition createListing (uuid now : string) (seller : string) (amount price : Q)
    (db : Database) : Listing * Database :=
  let listing := mkListing uuid seller amount price pending now in
  (listing, set_listings (insert (id listing) listing) db).

Record MarketItem := mkMarketItem {
  item_id : string;
  item_seller : string;
  item_amount : Q;
  item_price : Q;
  item_createdAt : string
}.

Definition market_item (l : Listing) : MarketItem :=
  mkMarketItem (id l) (seller l) (amount l) (price l) (createdAt l).

Definition getMarketplace (db : Database) : list MarketItem :=
  market_item <$>
    filter (fun l => status l = verified) ((map_to_list (listings db)).*2).

Inductive PurchaseResult :=
| PurchaseFailure (message : string)
| PurchaseSuccess (seller : string) (amount price : Q).

Definition purchase_success (r : PurchaseResult) : bool :=
  match r with
  | PurchaseFailure _ => false
  | PurchaseSuccess _ _ _ => true
  end.

Definition purchaseCredit (buyer listingId : string) (db : Database)
  : PurchaseResult * Database :=
  match listings db !! listingId with
  | None => (PurchaseFailure "Listing not found", db)
  | Some listing =>
    if negb (bool_decide (status listing = verified)) then
      (PurchaseFailure "Listing not available for purchase", db)
    else
      match users db !! buyer with
      | None => (PurchaseFailure "Buyer not found", db)
      | Some buyerUser =>
        let db1 := snd (updateUserBalance (seller listing) (- amount listing)%Q db) in
        let db2 := snd (updateUserBalance buyer (amount listing) db1) in
        let db3 := set_listings (delete listingId) db2 in
        (PurchaseSuccess (seller listing) (amount listing) (price listing), db3)
      end
  end.

Definition set_status (s : Status) (l : Listing) : Listing :=
  mkListing (id l) (seller l) (amount l) (price l) s (createdAt l).


Definition verifyListing (listingId : string) (db : Database) : bool * Database :=
  match listings db !! listingId with
  | Some listing =>
    (true, set_listings (insert listingId (set_status verified listing)) db)
  | None => (false, db)
  end.

(* ===================================================================== *)
(** * The ledger ([backend/blockchain.js])                                *)
(* ===================================================================== *)

(** The records the server chains, tagged by their [type] field. *)
Inductive BlockData :=
| genesis_data
| carbon_credit_listing
    (listingId seller : string) (amount price : Q) (timestamp : string) (status : Status)
| carbon_credit_purchase
    (listingId buyer seller : string) (amount price : Q) (timestamp : string).

Definition data_type (d : BlockData) : string :=
  match d with
  | genesis_data => "genesis"
  | carbon_credit_listing _ _ _ _ _ _ => "carbon_credit_listing"
  | carbon_credit_purchase _ _ _ _ _ _ => "carbon_credit_purchase"
  end.

Record Block := mkBlock {
  timestamp : string;
  data : BlockData;
  previousHash : string;
  hash : string;
  nonce : nat
}.

(** Modelled from the spec: the digest and the difficulty predicate of the
    ledger, whose source file is not part of the sources at hand.  The spec
    fixes neither, so they are the two operations of an interface; the
    third field bounds the nonce search of [append] from above, which is
    what makes the search a total function. *)
Class Hasher := {
  digest : string -> string -> BlockData -> nat -> string;
  meetsDifficulty : string -> bool;
  searchBound : string -> string -> BlockData -> nat
}.

Section Ledger.
Context `{Hasher}.

(** Modelled from the spec: [hash = digest(previousHash, timestamp,
    payload, nonce)]. *)
Definition calculateHash (b : Block) : string :=
  digest (previousHash b) (timestamp b) (data b) (nonce b).

(** Modelled from the spec: the constant previous-hash, timestamp and
    payload of the genesis block, the first block of every chain. *)
Definition genesisPreviousHash : string := "0".
Definition genesisTimestamp : string := "1970-01-01T00:00:00.000Z".

Definition createGenesisBlock : Block :=
  mkBlock genesisTimestamp genesis_data genesisPreviousHash
          (digest genesisPreviousHash genesisTimestamp genesis_data 0) 0.

Definition new_Blockchain : list Block := [createGenesisBlock].

(** Modelled from the spec: [append] "searches increasing nonce values
    until the digest satisfies the difficulty predicate".  The search
    tries [n], [n+1], ... and gives up after [fuel] candidates, returning
    the next one. *)
Fixpoint searchNonce (prev now : string) (payload : BlockData) (fuel n : nat) : nat :=
  match fuel with
  | O => n
  | S fuel' =>
    if meetsDifficulty (digest prev now payload n) then n
    else searchNonce prev now payload fuel' (S n)
  end.

Definition mineBlock (prev now : string) (payload : BlockData) : Block :=
  let n := searchNonce prev now payload (searchBound prev now payload) 0 in
  mkBlock now payload prev (digest prev now payload n) n.

(** The hash of the last block; the chain is never empty, and an empty
    list links to the genesis constant. *)
Definition latestHash (chain : list Block) : string :=
  match last chain with
  | Some b => hash b
  | None => genesisPreviousHash
  end.

(** Modelled from the spec: [append(payload)] mines a block on top of the
    last one, pushes it and returns it. *)
Definition addBlock (now : string) (payload : BlockData) (chain : list Block)
  : Block * list Block :=
  let block := mineBlock (latestHash chain) now payload in
  (block, chain ++ [block]).

Definition getChain (chain : list Block) : list Block := chain.

(** Modelled from the spec: [verify()] "recomputes every block's hash and
    previous-link and returns the first index at which integrity breaks,
    or none".  [verifyFrom prev i bs] checks the blocks [bs] that sit at
    positions [i], [i+1], ... after a block of hash [prev]. *)
Definition block_ok (expectedPrevious : option string) (b : Block) : bool :=
  bool_decide (hash b = calculateHash b) &&
  match expectedPrevious with
  | Some h => bool_decide (previousHash b = h)
  | None => true
  end.

Fixpoint verifyFrom (expectedPrevious : option string) (i : nat) (bs : list Block)
  : option nat :=
  match bs with
  | [] => None
  | b :: rest =>
    if block_ok expectedPrevious b then verifyFrom (Some (hash b)) (S i) rest
    else Some i
  end.

Definition verify (chain : list Block) : option nat := verifyFrom None 0 chain.

(** The chains that [append] builds from a fresh ledger. *)
Inductive appended : list Block -> Prop :=
| appended_new : appended new_Blockchain
| appended_add now payload chain :
    appended chain -> appended (snd (addBlock now payload chain)).

End Ledger.

(* ===================================================================== *)
(** * backend/pbft.js                                                     *)
(* ===================================================================== *)

(** A computation that calls [Math.random()]: it is given the number of
    calls made so far and returns the number made when it is done. *)
Definition Rand (A : Type) : Type := nat -> A * nat.

Record PBFT := mkPBFT { nodes : list string }.

Definition new_PBFT : PBFT := mkPBFT ["node1"; "node2"; "node3"; "node4"].

(** What [collectPrepareMessages] and [collectCommitMessages] return;
    [reached] is the field [prepared], respectively [committed]. *)
Record Tally := mkTally {
  reached : bool;
  voteCount : Z;
  required : Z
}.

Section Consensus.
Context {Tx : Type}.

Inductive ConsensusResult :=
| consensus_success (transaction : Tx)
| consensus_failure (error : string).

Definition success (r : ConsensusResult) : bool :=
  match r with
  | consensus_success _ => true
  | consensus_failure _ => false
  end.

(** The methods [simulateNodeVote] and [simulateNodeCommit], as a test
    double may replace them. *)
Definition Voter : Type := string -> Tx -> Rand bool.

(** [this.nodes.forEach(node => { if (vote(node, tx)) count++ })] *)
Fixpoint forEachVote (vote : Voter) (ns : list string) (tx : Tx) (count : Z)
  : Rand Z :=
  fun k =>
    match ns with
    | [] => (count, k)
    | node :: rest =>
      let '(yes, k') := vote node tx k in
      forEachVote vote rest tx (if yes then count + 1 else count)%Z k'
    end.

(** [Math.floor((this.nodes.length - 1) / 3) * 2 + 1] *)
Definition requiredVotes (this : PBFT) : Z :=
  ((Z.of_nat (length (nodes this)) - 1) / 3 * 2 + 1)%Z.

Definition collectMessages (this : PBFT) (vote : Voter) (tx : Tx) : Rand Tally :=
  fun k =>
    let '(count, k') := forEachVote vote (nodes this) tx 0%Z k in
    let required := requiredVotes this in
    (mkTally (required <=? count)%Z count required, k').

Definition collectPrepareMessages (this : PBFT) (simulateNodeVote : Voter) :=
  collectMessages this simulateNodeVote.

Definition collectCommitMessages (this : PBFT) (simulateNodeCommit : Voter) :=
  collectMessages this simulateNodeCommit.

Definition startConsensus {A} (this : PBFT) (simulateNodeVote simulateNodeCommit : Voter)
    (transaction : Tx) (callback : ConsensusResult -> A) : Rand A :=
  fun k =>
    let '(prepareResults, k1) :=
      collectPrepareMessages this simulateNodeVote transaction k in
    if reached prepareResults then
      let '(commitResults, k2) :=
        collectCommitMessages this simulateNodeCommit transaction k1 in
      if reached commitResults then
        (callback (consensus_success transaction), k2)
      else
        (callback (consensus_failure "Commit phase failed"), k2)
    else
      (callback (consensus_failure "Prepare phase failed"), k1).

(** [Math.random() > 0.2], where [random k] is what the call number [k]
    of [Math.random()] returns. *)
Definition simulateNodeVote (random : nat -> Q) : Voter :=
  fun node transaction k => (Qgtb (random k) (2 # 10), S k).

Definition simulateNodeCommit (random : nat -> Q) : Voter :=
  fun node transaction k => (Qgtb (random k) (2 # 10), S k).

(** A vote function that answers the same whatever it is asked. *)
Definition always (answer : bool) (vote : Voter) : Prop :=
  forall node tx k, fst (vote node tx k) = answer.

End Consensus.

Arguments ConsensusResult : clear implicits.
Arguments Voter : clear implicits.

(* ===================================================================== *)
(** * backend/server.js                                                   *)
(* ===================================================================== *)

Inductive Message :=
| blockchain_update (chain : list Block)
| marketplace_update (market : list MarketItem)
| user_balance_update (username : string) (balance : Q).

(** The three module-level objects of the server, and the messages
    [broadcastToClients] was called with, oldest first. *)
Record World := mkWorld {
  blockchain : list Block;
  database : Database;
  broadcasts : list Message
}.

(** What the handler of one request reads from outside: the identifier
    [uuidv4()] returns, the reading number [i] of the clock, and the result
    number [k] of [Math.random()]. *)
Record Env := mkEnv {
  uuid : string;
  clock : nat -> string;
  random : nat -> Q
}.

Record Response := mkResponse {
  res_status : nat;
  res_success : bool;
  res_message : string;
  res_listingId : option string
}.

Record RegisterBody := mkRegisterBody {
  register_username : option string;
  register_password : option string;
  register_role : option string
}.

Record ListCreditBody := mkListCreditBody {
  list_username : option string;
  list_amount : option Q;
  list_price : option Q
}.

Record BuyCreditBody := mkBuyCreditBody {
  buy_buyer : option string;
  buy_listingId : option string
}.

Definition broadcastToClients (m : Message) (w : World) : World :=
  mkWorld (blockchain w) (database w) (broadcasts w ++ [m]).

Definition set_database (db : Database) (w : World) : World :=
  mkWorld (blockchain w) db (broadcasts w).

Definition set_blockchain (chain : list Block) (w : World) : World :=
  mkWorld chain (database w) (broadcasts w).

Section Server.
Context `{Hasher}.

Definition new_World : World := mkWorld new_Blockchain new_Database [].

(** [app.post('/api/register')] *)
Definition api_register (body : RegisterBody) (w : World) : Response * World :=
  match register_username body, register_password body, register_role body with
  | Some username, Some password, Some role =>
    if falsy_string username || falsy_string password || falsy_string role then
      (mkResponse 400 false "All fields are required" None, w)
    else
      let '(result, db) := registerUser username password role (database w) in
      if reg_success result then
        (mkResponse 200 true "User registered successfully" None, set_database db w)
      else
        (mkResponse 400 false (reg_message result) None, set_database db w)
  | _, _, _ => (mkResponse 400 false "All fields are required" None, w)
  end.

(** The callback that [/api/list-credit] hands to [startConsensus]. *)
Definition list_credit_callback (env : Env) (listing : Listing) (username : string)
    (amount price : Q) (result : ConsensusResult Listing) (w : World) : World :=
  if success result then
    let '(block, chain) :=
      addBlock (clock env 2)
        (carbon_credit_listing (id listing) username amount price (clock env 1) verified)
        (blockchain w) in
    let w := set_blockchain chain w in
    let w := set_database (snd (updateUserBalance username amount (database w))) w in
    let w := set_database (snd (verifyListing (id listing) (database w))) w in
    let w := broadcastToClients (blockchain_update (getChain (blockchain w))) w in
    let w := broadcastToClients (marketplace_update (getMarketplace (database w))) w in
    match getUser username (database w) with
    | Some user => broadcastToClients (user_balance_update username (balance user)) w
    | None => w
    end
  else
    match listings (database w) !! id listing with
    | Some failedListing =>
      set_database
        (set_listings (insert (id listing) (set_status failed failedListing)) (database w)) w
    | None => w
    end.

(** [app.post('/api/list-credit')], with the vote methods of the [PBFT]
    object as parameters. *)
Definition api_list_credit_with (vote commit : Voter Listing)
    (env : Env) (body : ListCreditBody) (w : World) : Response * World :=
  match list_username body, list_amount body, list_price body with
  | Some username, Some amount, Some price =>
    if falsy_string username || falsy_number amount || falsy_number price then
      (mkResponse 400 false "All fields are required" None, w)
    else
      match getUser username (database w) with
      | Some user =>
        if negb (bool_decide (role user = "seller")) then
          (mkResponse 400 false "Invalid user or not a seller" None, w)
        else
          let '(listing, db) :=
            createListing (uuid env) (clock env 0) username amount price (database w) in
          let w := set_database db w in
          let '(effect, _) :=
            startConsensus new_PBFT vote commit listing
              (list_credit_callback env listing username amount price) 0 in
          (mkResponse 200 true "Carbon credit listed and undergoing verification"
                      (Some (id listing)),
           effect w)
      | None => (mkResponse 400 false "Invalid user or not a seller" None, w)
      end
  | _, _, _ => (mkResponse 400 false "All fields are required" None, w)
  end.

(** The route as the server runs it: both votes draw from
    [Math.random()]. *)
Definition api_list_credit (env : Env) : ListCreditBody -> World -> Response * World :=
  api_list_credit_with (simulateNodeVote (random env)) (simulateNodeCommit (random env)) env.

(** [app.get('/api/marketplace')] *)
Definition api_marketplace (w : World) : list MarketItem :=
  getMarketplace (database w).

(** [app.post('/api/buy-credit')].  Reading [.balance] of a user that
    [getUser] did not find throws, which the framework answers with 500. *)
Definition api_buy_credit (env : Env) (body : BuyCreditBody) (w : World)
  : Response * World :=
  match buy_buyer body, buy_listingId body with
  | Some buyer, Some listingId =>
    if falsy_string buyer || falsy_string listingId then
      (mkResponse 400 false "Buyer and listing ID are required" None, w)
    else
      let '(result, db) := purchaseCredit buyer listingId (database w) in
      let w := set_database db w in
      match result with
      | PurchaseSuccess seller amount price =>
        let '(block, chain) :=
          addBlock (clock env 1)
            (carbon_credit_purchase listingId buyer seller amount price (clock env 0))
            (blockchain w) in
        let w := set_blockchain chain w in
        let buyerUser := getUser buyer (database w) in
        let sellerUser := getUser seller (database w) in
        let w := broadcastToClients (blockchain_update (getChain (blockchain w))) w in
        let w := broadcastToClients (marketplace_update (getMarketplace (database w))) w in
        match buyerUser with
        | Some bu =>
          let w := broadcastToClients (user_balance_update buyer (balance bu)) w in
          match sellerUser with
          | Some su =>
            let w := broadcastToClients (user_balance_update seller (balance su)) w in
            (mkResponse 200 true "Purchase successful" None, w)
          | None => (mkResponse 500 false "Internal Server Error" None, w)
          end
        | None => (mkResponse 500 false "Internal Server Error" None, w)
        end
      | PurchaseFailure message => (mkResponse 400 false message None, w)
      end
  | _, _ => (mkResponse 400 false "Buyer and listing ID are required" None, w)
  end.

(** One request to one of the three routes that change state. *)
Inductive Request :=
| POST_register (body : RegisterBody)
| POST_list_credit (env : Env) (body : ListCreditBody)
| POST_buy_credit (env : Env) (body : BuyCreditBody).

Definition handle (r : Request) (w : World) : Response * World :=
  match r with
  | POST_register body => api_register body w
  | POST_list_credit env body => api_list_credit env body w
  | POST_buy_credit env body => api_buy_credit env body w
  end.

(** The worlds the server can be in after a sequence of requests. *)
Definition run (rs : list Request) : World :=
  fold_left (fun w r => snd (handle r w)) rs new_World.

Definition reachable (w : World) : Prop := exists rs, w = run rs.

End Server.

(* ===================================================================== *)
(** * Notions the statements use                                          *)
(* ===================================================================== *)

(** The four validators asked one after the other: how many answer YES,
    and the state the last answer leaves. *)
Definition fourVotes {Tx} (vote : Voter Tx) (tx : Tx) (k : nat) : Z * nat :=
  let '(v1, k1) := vote "node1" tx k in
  let '(v2, k2) := vote "node2" tx k1 in
  let '(v3, k3) := vote "node3" tx k2 in
  let '(v4, k4) := vote "node4" tx k3 in
  (((if v1 then 1 else 0) + (if v2 then 1 else 0)
    + (if v3 then 1 else 0) + (if v4 then 1 else 0))%Z, k4).

(** Every listing is stored under its own identifier. *)
Definition ids_are_keys (db : Database) : Prop :=
  forall key l, listings db !! key = Some l -> id l = key.

(** The accounts after a purchase of [q] credits by [buyer] from
    [sellerName]: the seller is debited first, the buyer credited second,
    on the record the first update left. *)
Definition settle (buyer sellerName : string) (q : Q) (us : gmap string User)
  : gmap string User :=
  let us1 := alter (add_balance (- q)) sellerName us in
  alter (add_balance q) buyer us1.

(** The listing that [/api/list-credit] creates and proposes. *)
Definition proposed (env : Env) (name : string) (a p : Q) : Listing :=
  mkListing (uuid env) name a p pending (clock env 0).

(** The decision of the gate on that listing. *)
Definition decision (vote commit : Voter Listing) (env : Env) (name : string) (a p : Q)
  : ConsensusResult Listing :=
  fst (startConsensus new_PBFT vote commit (proposed env name a p) (fun r => r) 0).

(** What the next block has to link to, after the blocks [bs] that
    follow a block of hash [expectedPrevious]. *)
Definition expectedAfter (expectedPrevious : option string) (bs : list Block)
  : option string :=
  match last bs with
  | Some b => Some (hash b)
  | None => expectedPrevious
  end.

(** What the verified listings of the seller [name] add up to. *)
Definition count_listing (name : string) (l : Listing) (acc : Q) : Q :=
  if bool_decide (seller l = name /\ status l = verified) then (acc + amount l)%Q else acc.

Definition listed (name : string) (ls : gmap string Listing) : Q :=
  map_fold (fun _ l acc => count_listing name l acc) 0%Q ls.

Definition amounts_positive (ls : gmap string Listing) : Prop :=
  forall key l, ls !! key = Some l -> (0 < amount l)%Q.

(** The invariant behind non-negative balances: every stored amount is
    positive, every listing names an existing account as its seller, and
    every account holds at least what it has on offer. *)
Record covered (db : Database) : Prop := mkCovered {
  covered_amounts : amounts_positive (listings db);
  covered_sellers :
    forall key l, listings db !! key = Some l -> is_Some (users db !! seller l);
  covered_balances :
    forall name u, users db !! name = Some u ->
      (listed name (listings db) <= balance u)%Q
}.

(** A request that, if it lists credits, lists a positive amount. *)
Definition asks_positive (r : Request) : Prop :=
  match r with
  | POST_list_credit _ body =>
    match list_amount body with
    | Some a => (0 < a)%Q
    | None => True
    end
  | _ => True
  end.

(* ===================================================================== *)
(** * Fixtures: a small hasher, forced votes, sample requests             *)
(* ===================================================================== *)

(** A digest that is cheap to run: the parity of the nonce, the kind of
    the payload, the timestamp and the previous hash.  A hash meets the
    difficulty when it starts with the character 0, which every odd nonce
    achieves. *)
Definition toyDigest (prev now : string) (payload : BlockData) (n : nat) : string :=
  String.append (if Nat.even n then "1" else "0")
    (String.append (data_type payload) (String.append now prev)).

Definition toyDifficulty (h : string) : bool :=
  match h with
  | String c _ => bool_decide (c = "0"%char)
  | EmptyString => false
  end.

Definition toyHasher : Hasher :=
  {| digest := toyDigest; meetsDifficulty := toyDifficulty; searchBound := fun _ _ _ => 2 |}.

(** Vote functions that ignore [Math.random()]. *)
Definition voteYes {Tx} : Voter Tx := fun _ _ k => (true, k).
Definition voteNo {Tx} : Voter Tx := fun _ _ k => (false, k).

(** A vote function that answers YES to the first [n] questions. *)
Definition voteFirst {Tx} (n : nat) : Voter Tx := fun _ _ k => ((k <? n)%nat, S k).

(** A vote function that answers NO to the question number [n] only. *)
Definition voteAllBut {Tx} (n : nat) : Voter Tx := fun _ _ k => (negb (k =? n)%nat, S k).

(** Sources of [Math.random()] that make every vote YES, respectively NO. *)
Definition allYes : nat -> Q := fun _ => (9 # 10)%Q.
Definition allNo : nat -> Q := fun _ => (1 # 10)%Q.

Definition testClock : nat -> string := fun _ => "2024-01-01T00:00:00.000Z".

Definition testEnv (listingId : string) (random : nat -> Q) : Env :=
  mkEnv listingId testClock random.

Definition listRequest (listingId seller : string) (amount price : Q) (random : nat -> Q)
  : Request :=
  POST_list_credit (testEnv listingId random)
    (mkListCreditBody (Some seller) (Some amount) (Some price)).

Definition buyRequest (buyer listingId : string) : Request :=
  POST_buy_credit (testEnv "" allYes) (mkBuyCreditBody (Some buyer) (Some listingId)).

(** The balance of an account, if it exists. *)
Definition balanceOf (name : string) (w : World) : option Q :=
  balance <$> getUser name (database w).

(** The initial world after one committed listing of 5 credits by seller1. *)
Definition oneListing : World :=
  run (H := toyHasher) [listRequest "L1" "seller1" 5 1 allYes].

Definition listingL1 : Listing :=
  mkListing "L1" "seller1" 5 1 verified (testClock 0).

Definition seller1 (b : Q) : User := mkUser "seller1" "password123" "seller" b.
Definition buyer1 (b : Q) : User := mkUser "buyer1" "password123" "buyer" b.

(* ===================================================================== *)
(** * backend/server.js: the routes that only read                        *)
(* ===================================================================== *)

Record LoginBody := mkLoginBody {
  login_username : option string;
  login_password : option string
}.

(** What [/api/login] and [/api/user/:username] answer: the public part
    of an account, or a status with a message. *)
Inductive UserResponse :=
| user_json (status : nat) (username role : string) (balance : Q)
| user_error (status : nat) (message : string).

(** [app.post('/api/login')] *)
Definition api_login (body : LoginBody) (w : World) : UserResponse :=
  match login_username body, login_password body with
  | Some name, Some pass =>
    if falsy_string name || falsy_string pass then
      user_error 400 "Username and password are required"
    else
      match authenticateUser name pass (database w) with
      | Some user => user_json 200 (username user) (role user) (balance user)
      | None => user_error 401 "Invalid credentials"
      end
  | _, _ => user_error 400 "Username and password are required"
  end.

(** [app.get('/api/user/:username')] *)
Definition api_user (name : string) (w : World) : UserResponse :=
  match getUser name (database w) with
  | Some user => user_json 200 (username user) (role user) (balance user)
  | None => user_error 404 "User not found"
  end.

(** [app.get('/api/blockchain')] *)
Definition api_blockchain (w : World) : list Block := getChain (blockchain w).

(** The requests of [run], applied to any world. *)
Definition run_from `{Hasher} (w : World) (rs : list Request) : World :=
  fold_left (fun w r => snd (handle r w)) rs w.

(* ===================================================================== *)
(** * backend/server.js: the WebSocket clients                            *)
(* ===================================================================== *)

Inductive ReadyState := CONNECTING | OPEN | CLOSING | CLOSED.

#[global] Instance ReadyState_eq_dec : EqDecision ReadyState.
Proof. solve_decision. Defined.

(** A socket of the [ws] library: its state and what [send] was called
    with, oldest first. *)
Record Socket := mkSocket {
  readyState : ReadyState;
  sent : list Message
}.

Definition send (m : Message) (ws : Socket) : Socket :=
  mkSocket (readyState ws) (sent ws ++ [m]).

(** The set [clients]; a socket object is told from the others by a
    number. *)
Definition Clients : Type := gmap nat Socket.

(** The handler of [wss.on('connection')] for the socket [ws] of number
    [key]: it joins the set and is sent the chain and the marketplace. *)
Definition on_connection (key : nat) (ws : Socket) (w : World) (clients : Clients)
  : Clients :=
  let ws := send (blockchain_update (getChain (blockchain w))) ws in
  let ws := send (marketplace_update (getMarketplace (database w))) ws in
  <[key := ws]> clients.

(** The handlers of [ws.on('close')] and [ws.on('error')]. *)
Definition on_close (key : nat) (clients : Clients) : Clients := delete key clients.
Definition on_error (key : nat) (clients : Clients) : Clients := delete key clients.

(** [broadcastToClients(data)] on the sockets: every client whose state
    is [OPEN] is sent the message. *)
Definition broadcastToSockets (m : Message) (clients : Clients) : Clients :=
  (fun client =>
     if bool_decide (readyState client = OPEN) then send m client else client)
  <$> clients.

(** The messages a request made the server broadcast, delivered in
    order. *)
Definition deliver (ms : list Message) (clients : Clients) : Clients :=
  fold_left (fun cs m => broadcastToSockets m cs) ms clients.

(** [app.get('/api/health')] *)
Record Health := mkHealth {
  health_status : string;
  blockchainLength : nat;
  connectedClients : nat
}.

Definition api_health (w : World) (clients : Clients) : Health :=
  mkHealth "OK" (length (getChain (blockchain w))) (size clients).

(* ===================================================================== *)
(** * The later revision of backend/server.js                             *)
(* ===================================================================== *)

(** The revision of the server that follows [pbft.js] in the sources
    tests [amount == null] and [price == null] where the first tests
    [!amount] and [!price], wraps the consensus callback and every [send]
    in [try], and broadcasts a balance only for a user it found. *)
Section ServerRevision.
Context `{Hasher}.



End ServerRevision.

(* ===================================================================== *)
(** * frontend/app.js: what the page sends                                *)
(* ===================================================================== *)

(** [currentUser], the [user] object of the answer to a login. *)
Record SessionUser := mkSessionUser {
  session_username : string;
  session_role : string;
  session_balance : Q
}.

(** What a click ends in: an alert, or a request to the server. *)
Inductive PageAction (Body : Type) :=
| showAlert (message : string)
| stay
| fetch (body : Body).
Arguments showAlert {Body} message.
Arguments stay {Body}.
Arguments fetch {Body} body.

(** [a < b] on numbers. *)
Definition Qltb (a b : Q) : bool := negb (Qle_bool b a).

(** [listCredits()], up to the request it sends.  The two arguments are
    what [parseFloat] makes of the two input fields, [None] for [NaN]. *)
Definition listCredits (session : option SessionUser) (amount price : option Q)
  : PageAction ListCreditBody :=
  match session with
  | None => showAlert "Only sellers can list carbon credits"
  | Some user =>
    if negb (bool_decide (session_role user = "seller")) then
      showAlert "Only sellers can list carbon credits"
    else if missing falsy_number amount
            || match amount with Some a => Qltb a 1 | None => false end then
      showAlert "Please enter a valid credit amount (minimum 1)"
    else if missing falsy_number price
            || match price with Some p => Qltb p (1 # 100) | None => false end then
      showAlert "Please enter a valid price (minimum $0.01)"
    else
      fetch (mkListCreditBody (Some (session_username user)) amount price)
  end.


(** What the page holds: the session, and the data its three displays
    were last filled with. *)
Record Page := mkPage {
  currentUser : option SessionUser;
  shownChain : list Block;
  shownListings : list MarketItem;
  shownBalance : option Q
}.

(** [ws.onmessage]: a chain or a marketplace is displayed; a balance is
    taken into the session, and displayed, when it is the balance of the
    user of the session. *)
Definition onmessage (m : Message) (page : Page) : Page :=
  match m with
  | blockchain_update chain =>
    mkPage (currentUser page) chain (shownListings page) (shownBalance page)
  | marketplace_update market =>
    mkPage (currentUser page) (shownChain page) market (shownBalance page)
  | user_balance_update name b =>
    match currentUser page with
    | Some user =>
      if bool_decide (session_username user = name) then
        mkPage (Some (mkSessionUser (session_username user) (session_role user) b))
               (shownChain page) (shownListings page) (Some b)
      else page
    | None => page
    end
  end.

(** The messages of a socket, handled in the order they were sent. *)
Definition receive (ms : list Message) (page : Page) : Page :=
  fold_left (fun p m => onmessage m p) ms page.

(** [ws.onopen] and [ws.onclose] on the counter [reconnectAttempts]:
    a close schedules a reconnection after a delay in milliseconds, or
    none once five were attempted. *)
Definition maxReconnectAttempts : nat := 5.

Definition onopen (reconnectAttempts : nat) : nat := 0.

Definition onclose (reconnectAttempts : nat) : option Z * nat :=
  if (reconnectAttempts <? maxReconnectAttempts)%nat then
    (Some (Z.min (1000 * 2 ^ Z.of_nat reconnectAttempts) 30000), S reconnectAttempts)
  else (None, reconnectAttempts).

Inductive SocketEvent := opened | closed.

(** The delays scheduled over a sequence of events, oldest first. *)
Fixpoint reconnections (events : list SocketEvent) (reconnectAttempts : nat)
  : list Z * nat :=
  match events with
  | [] => ([], reconnectAttempts)
  | opened :: rest => reconnections rest (onopen reconnectAttempts)
  | closed :: rest =>
    let '(delay, attempts) := onclose reconnectAttempts in
    let '(delays, final) := reconnections rest attempts in
    (match delay with Some d => d :: delays | None => delays end, final)
  end.

(* ===================================================================== *)
(** * Notions the further statements use                                  *)
(* ===================================================================== *)

(** Every account is stored under its own name, with a name and a
    password that are not empty and one of the two roles. *)
Definition accounts_wellformed (db : Database) : Prop :=
  forall name u, users db !! name = Some u ->
    username u = name /\ name <> "" /\ password u <> "" /\
    role u ∈ ["buyer"; "seller"].

(** No listing is pending, and the seller of every listing is an account
    with the role seller. *)
Definition listings_decided (db : Database) : Prop :=
  forall key l, listings db !! key = Some l ->
    status l <> pending /\
    exists u, users db !! seller l = Some u /\ role u = "seller".

(** A request to list that stores its listing under [listingId]. *)
Definition reuses (listingId : string) (r : Request) : Prop :=
  match r with
  | POST_list_credit env _ => uuid env = listingId
  | _ => False
  end.

(** The sum of all balances. *)
Definition totalBalance (us : gmap string User) : Q :=
  map_fold (fun _ u acc => (acc + balance u)%Q) 0%Q us.

(** The credits a block records as issued, and their sum over a chain. *)
Definition issuedBy (b : Block) : Q :=
  match data b with
  | carbon_credit_listing _ _ a _ _ _ => a
  | _ => 0%Q
  end.

Definition totalIssued (chain : list Block) : Q :=
  fold_left (fun acc b => (acc + issuedBy b)%Q) chain 0%Q.

(** A number without a fractional part. *)
Definition whole (a : Q) : Prop := Qden a = 1%positive.

(** Up to [2^53] every whole number is a double, and the sum or the
    difference of two of them that stays in that range is computed
    without rounding. *)
Definition maxExact : Q := inject_Z (2 ^ 53).

(** The amount a request asks to list; 0 when it lists nothing. *)
Definition asked (r : Request) : Q :=
  match r with
  | POST_list_credit _ body =>
    match list_amount body with
    | Some a => a
    | None => 0%Q
    end
  | _ => 0%Q
  end.

(** A request that, if it lists credits, lists a positive whole amount. *)
Definition asks_whole (r : Request) : Prop := whole (asked r) /\ asks_positive r.

Definition totalAsked (rs : list Request) : Q :=
  fold_left (fun acc r => (acc + asked r)%Q) rs 0%Q.

(** Every balance and every stored amount is a whole number. *)
Definition all_whole (db : Database) : Prop :=
  (forall name u, users db !! name = Some u -> whole (balance u)) /\
  (forall key l, listings db !! key = Some l -> whole (amount l)).

(** How many of the [n] results of [Math.random()] from call number [k]
    on are above 0.2. *)
Fixpoint yesVotes (random : nat -> Q) (k n : nat) : Z :=
  match n with
  | O => 0%Z
  | S n' => ((if Qgtb (random k) (2 # 10) then 1 else 0) + yesVotes random (S k) n')%Z
  end.

(** The balance messages that close the broadcasts of a purchase: the
    buyer's, then the seller's, each for an account that exists; the
    handler stops at the first that does not. *)
Definition balanceMessages (buyer sellerName : string) (db : Database) : list Message :=
  match getUser buyer db with
  | Some bu =>
    user_balance_update buyer (balance bu) ::
    match getUser sellerName db with
    | Some su => [user_balance_update sellerName (balance su)]
    | None => []
    end
  | None => []
  end.

(** The five things a request can do to the world: nothing, add an
    account, commit a listing, store a failed listing, settle a
    purchase. *)
Inductive Transition `{Hasher} (w : World) : Request -> World -> Prop :=
| nothing_happens r : Transition w r w
| account_added body name pass r :
    users (database w) !! name = None ->
    name <> "" -> pass <> "" -> r ∈ ["buyer"; "seller"] ->
    Transition w (POST_register body)
      (set_database (set_users (insert name (mkUser name pass r 0)) (database w)) w)
| listing_committed env name a p user :
    name <> "" -> falsy_number a = false -> falsy_number p = false ->
    users (database w) !! name = Some user -> role user = "seller" ->
    let block :=
      mineBlock (latestHash (blockchain w)) (clock env 2)
        (carbon_credit_listing (uuid env) name a p (clock env 1) verified) in
    let chain := blockchain w ++ [block] in
    let db :=
      mkDatabase (<[name := add_balance a user]> (users (database w)))
                 (<[uuid env := mkListing (uuid env) name a p verified (clock env 0)]>
                    (listings (database w))) in
    Transition w
      (POST_list_credit env (mkListCreditBody (Some name) (Some a) (Some p)))
      (mkWorld chain db
         (broadcasts w ++
          [blockchain_update chain; marketplace_update (getMarketplace db);
           user_balance_update name (balance user + a)%Q]))
| listing_failed env name a p user :
    name <> "" -> falsy_number a = false -> falsy_number p = false ->
    users (database w) !! name = Some user -> role user = "seller" ->
    Transition w
      (POST_list_credit env (mkListCreditBody (Some name) (Some a) (Some p)))
      (mkWorld (blockchain w)
         (mkDatabase (users (database w))
            (<[uuid env := mkListing (uuid env) name a p failed (clock env 0)]>
               (listings (database w))))
         (broadcasts w))
| listing_bought env buyer listingId l buyerUser :
    buyer <> "" -> listingId <> "" ->
    listings (database w) !! listingId = Some l -> status l = verified ->
    users (database w) !! buyer = Some buyerUser ->
    let block :=
      mineBlock (latestHash (blockchain w)) (clock env 1)
        (carbon_credit_purchase listingId buyer (seller l) (amount l) (price l)
           (clock env 0)) in
    let chain := blockchain w ++ [block] in
    let db :=
      mkDatabase (settle buyer (seller l) (amount l) (users (database w)))
                 (delete listingId (listings (database w))) in
    Transition w
      (POST_buy_credit env (mkBuyCreditBody (Some buyer) (Some listingId)))
      (mkWorld chain db
         (broadcasts w ++
          [blockchain_update chain; marketplace_update (getMarketplace db)] ++
          balanceMessages buyer (seller l) db)).

(** The messages broadcast between two worlds. *)
Definition newBroadcasts (w w' : World) : list Message :=
  drop (length (broadcasts w)) (broadcasts w').

(** A balance message that tells the balance the account has in [w]. *)
Definition tells_balance (w : World) (m : Message) : Prop :=
  match m with
  | user_balance_update name b => balanceOf name w = Some b
  | _ => False
  end.

(** What the server chains after the genesis block: a listing record
    with the status verified, or a purchase record. *)
Definition records_success (b : Block) : Prop :=
  match data b with
  | genesis_data => False
  | carbon_credit_listing _ _ _ _ _ st => st = verified
  | carbon_credit_purchase _ _ _ _ _ _ => True
  end.

(* ===================================================================== *)
(** * Further fixtures                                                    *)
(* ===================================================================== *)

Definition carol : RegisterBody :=
  mkRegisterBody (Some "carol") (Some "secret") (Some "buyer").

(** The page of seller1 and of buyer1 after a login on the initial
    server. *)
Definition sellerSession : SessionUser := mkSessionUser "seller1" "seller" 0.
Definition buyerSession : SessionUser := mkSessionUser "buyer1" "buyer" 0.
Definition buyerPage : Page := mkPage (Some buyerSession) [] [] None.

(** Two sockets, the first open and the second closing. *)
Definition twoSockets : Clients :=
  <[1%nat := mkSocket OPEN []]> (<[2%nat := mkSocket CLOSING []]> ∅).

(** A gate without validators. *)
Definition noValidators : PBFT := mkPBFT [].

(** The first listing of seller1, as a body and as a request. *)
Definition fiveCredits : ListCreditBody :=
  mkListCreditBody (Some "seller1") (Some 5%Q) (Some 1%Q).

Definition buyL1 : BuyCreditBody := mkBuyCreditBody (Some "buyer1") (Some "L1").

(* ===================================================================== *)
(** * The quorum gate                                                     *)
(* ===================================================================== *)

Section ConsensusFacts.
Context {Tx : Type}.
Implicit Types (vote commit : Voter Tx) (tx : Tx) (k : nat).

Lemma forEachVote_always answer vote ns tx count k :
  always answer vote ->
  fst (forEachVote vote ns tx count k)
  = (count + if answer then Z.of_nat (length ns) else 0)%Z.
Proof.
  intros Hvote. revert count k.
  induction ns as [|node rest IH]; intros count k; simpl.
  - destruct answer; lia.
  - specialize (Hvote node tx k).
    destruct (vote node tx k) as [yes k']; simpl in Hvote; subst yes.
    rewrite IH. destruct answer; lia.
Qed.

Lemma requiredVotes_four : requiredVotes new_PBFT = 3%Z.
Proof. reflexivity. Qed.

Lemma collectMessages_required this vote tx k :
  required (fst (collectMessages this vote tx k)) = requiredVotes this.
Proof.
  unfold collectMessages. destruct (forEachVote _ _ _ _ _); reflexivity.
Qed.

Lemma collectMessages_reached this vote tx k :
  reached (fst (collectMessages this vote tx k))
  = (requiredVotes this <=? voteCount (fst (collectMessages this vote tx k)))%Z.
Proof.
  unfold collectMessages. destruct (forEachVote _ _ _ _ _); reflexivity.
Qed.

Lemma collectMessages_always answer this vote tx k :
  always answer vote ->
  voteCount (fst (collectMessages this vote tx k))
  = (if answer then Z.of_nat (length (nodes this)) else 0)%Z.
Proof.
  intros Hvote. unfold collectMessages.
  pose proof (forEachVote_always answer vote (nodes this) tx 0%Z k Hvote) as Hcount.
  destruct (forEachVote _ _ _ _ _); simpl in *. rewrite Hcount. lia.
Qed.

(** The callback is called exactly once, with the decision. *)
Lemma startConsensus_callback {A} this vote commit tx (callback : ConsensusResult Tx -> A) k :
  startConsensus this vote commit tx callback k
  = (callback (fst (startConsensus this vote commit tx (fun r => r) k)),
     snd (startConsensus this vote commit tx (fun r => r) k)).
Proof.
  unfold startConsensus.
  destruct (collectPrepareMessages _ _ _ _) as [p k1].
  destruct (reached p); [|reflexivity].
  destruct (collectCommitMessages _ _ _ _) as [c k2].
  destruct (reached c); reflexivity.
Qed.


Lemma startConsensus_prepare_failed {A} this vote commit tx (callback : ConsensusResult Tx -> A) k :
  reached (fst (collectPrepareMessages this vote tx k)) = false ->
  startConsensus this vote commit tx callback k
  = (callback (consensus_failure "Prepare phase failed"),
     snd (collectPrepareMessages this vote tx k)).
Proof.
  unfold startConsensus.
  destruct (collectPrepareMessages _ _ _ _) as [p k1]; simpl.
  intros ->. reflexivity.
Qed.

(** A phase over the four validators of the server, in closed form. *)
Lemma collectMessages_four vote tx k :
  collectMessages new_PBFT vote tx k
  = (mkTally (3 <=? fst (fourVotes vote tx k))%Z (fst (fourVotes vote tx k)) 3,
     snd (fourVotes vote tx k)).
Proof.
  unfold collectMessages, fourVotes. simpl nodes. cbn [forEachVote].
  destruct (vote "node1" tx k) as [v1 k1].
  destruct (vote "node2" tx k1) as [v2 k2].
  destruct (vote "node3" tx k2) as [v3 k3].
  destruct (vote "node4" tx k3) as [v4 k4].
  rewrite requiredVotes_four.
  destruct v1, v2, v3, v4; reflexivity.
Qed.

(** C3. With the four validators of the server the threshold is
    [2 * floor((4 - 1) / 3) + 1 = 3], and both phases report it as
    their [required] count.  If both vote functions always answer YES the
    decision handed to the callback is the committed one; if the prepare
    vote function always answers NO it is an aborted one; and whenever
    the prepare phase counts fewer than three YES votes the decision is
    the abort of the prepare phase, whatever the commit vote function
    is, and the run ends in the state the prepare phase left: the commit
    phase is not run.  For any vote functions, each phase asks the four
    validators in turn and counts the YES answers, and three decide:
    a phase is reached exactly when its count is at least 3, the commit
    phase is run from the state the prepare phase left, and the decision
    is the committed one exactly when both counts are at least 3, the
    abort of the commit phase when only the prepare count is. *)
Theorem quorum_gate_threshold {A} vote commit tx (callback : ConsensusResult Tx -> A) k :
  requiredVotes new_PBFT = (2 * ((4 - 1) / 3) + 1)%Z /\
  requiredVotes new_PBFT = 3%Z /\
  required (fst (collectPrepareMessages new_PBFT vote tx k)) = 3%Z /\
  required (fst (collectCommitMessages new_PBFT commit tx k)) = 3%Z /\
  (always true vote -> always true commit ->
   fst (startConsensus new_PBFT vote commit tx callback k)
   = callback (consensus_success tx)) /\
  (always false vote ->
   exists reason,
     fst (startConsensus new_PBFT vote commit tx callback k)
     = callback (consensus_failure reason)) /\
  ((voteCount (fst (collectPrepareMessages new_PBFT vote tx k)) < 3)%Z ->
   forall commit',
     startConsensus new_PBFT vote commit' tx callback k
     = (callback (consensus_failure "Prepare phase failed"),
        snd (collectPrepareMessages new_PBFT vote tx k))) /\
  collectPrepareMessages new_PBFT vote tx k
  = (mkTally (3 <=? fst (fourVotes vote tx k))%Z (fst (fourVotes vote tx k)) 3,
     snd (fourVotes vote tx k)) /\
  (forall k1,
     collectCommitMessages new_PBFT commit tx k1
     = (mkTally (3 <=? fst (fourVotes commit tx k1))%Z (fst (fourVotes commit tx k1)) 3,
        snd (fourVotes commit tx k1))) /\
  startConsensus new_PBFT vote commit tx callback k
  = (let '(prepareYes, k1) := fourVotes vote tx k in
     if (3 <=? prepareYes)%Z then
       let '(commitYes, k2) := fourVotes commit tx k1 in
       if (3 <=? commitYes)%Z then (callback (consensus_success tx), k2)
       else (callback (consensus_failure "Commit phase failed"), k2)
     else (callback (consensus_failure "Prepare phase failed"), k1)).
Proof.
  split; [reflexivity|]. split; [reflexivity|].
  split; [apply collectMessages_required|].
  split; [apply collectMessages_required|].
  split; [|split; [|split; [|split; [|split]]]];
    [| | |apply collectMessages_four|intros k1; apply collectMessages_four|].
  4:{ unfold startConsensus, collectPrepareMessages, collectCommitMessages.
      rewrite collectMessages_four.
      destruct (fourVotes vote tx k) as [prepareYes k1]. cbn [fst snd reached].
      destruct (3 <=? prepareYes)%Z; [|reflexivity].
      rewrite collectMessages_four.
      destruct (fourVotes commit tx k1) as [commitYes k2]. cbn [fst snd reached].
      destruct (3 <=? commitYes)%Z; reflexivity. }
  - intros Hvote Hcommit.
    rewrite startConsensus_callback. simpl. f_equal.
    unfold startConsensus, collectPrepareMessages, collectCommitMessages.
    pose proof (collectMessages_reached new_PBFT vote tx k) as Hp.
    rewrite (collectMessages_always true) in Hp by assumption.
    destruct (collectMessages new_PBFT vote tx k) as [p k1]; simpl in Hp.
    rewrite Hp; simpl.
    pose proof (collectMessages_reached new_PBFT commit tx k1) as Hc.
    rewrite (collectMessages_always true) in Hc by assumption.
    destruct (collectMessages new_PBFT commit tx k1) as [c k2]; simpl in Hc.
    rewrite Hc; reflexivity.
  - intros Hvote. exists "Prepare phase failed".
    rewrite startConsensus_prepare_failed; [reflexivity|].
    unfold collectPrepareMessages. rewrite collectMessages_reached.
    rewrite (collectMessages_always false) by assumption. reflexivity.
  - intros Hcount commit'.
    apply startConsensus_prepare_failed.
    unfold collectPrepareMessages in *. rewrite collectMessages_reached.
    rewrite requiredVotes_four. apply Z.leb_gt. exact Hcount.
Qed.

End ConsensusFacts.

(** The cases of [quorum_gate_threshold] on forced votes: four YES votes
    in each phase, four NO votes, two YES votes out of four, three YES
    votes out of four in each phase, and four YES votes followed by two. *)
Lemma quorum_gate_threshold_witness :
  (always true (@voteYes unit) /\
   fst (startConsensus new_PBFT voteYes voteYes tt (fun r => r) 0)
   = consensus_success tt) /\
  (always false (@voteNo unit) /\
   exists reason,
     fst (startConsensus new_PBFT voteNo voteYes tt (fun r => r) 0)
     = consensus_failure reason) /\
  ((voteCount (fst (collectPrepareMessages new_PBFT (voteFirst 2) tt 0%nat)) < 3)%Z /\
   startConsensus new_PBFT (voteFirst 2) voteYes tt (fun r => r) 0
   = (consensus_failure "Prepare phase failed", 4)) /\
  startConsensus new_PBFT (voteAllBut 1) (voteAllBut 5) tt (fun r => r) 0
  = (consensus_success tt, 8) /\
  startConsensus new_PBFT (voteFirst 4) (voteFirst 6) tt (fun r => r) 0
  = (consensus_failure "Commit phase failed", 8).
Proof.
  assert (always true (@voteYes unit)) as Hyes by (intros ? ? ?; reflexivity).
  assert (always false (@voteNo unit)) as Hno by (intros ? ? ?; reflexivity).
  assert (voteCount (fst (collectPrepareMessages new_PBFT (voteFirst 2) tt 0%nat)) < 3)%Z
    as Hfew by (vm_compute; reflexivity).
  split; [|split; [|split; [|split]]].
  - split; [exact Hyes|].
    destruct (quorum_gate_threshold voteYes voteYes tt (fun r => r) 0)
      as (_ & _ & _ & _ & Hcommit & _).
    exact (Hcommit Hyes Hyes).
  - split; [exact Hno|].
    destruct (quorum_gate_threshold voteNo voteYes tt (fun r => r) 0)
      as (_ & _ & _ & _ & _ & Habort & _).
    exact (Habort Hno).
  - split; [exact Hfew|].
    destruct (quorum_gate_threshold (voteFirst 2) voteYes tt (fun r => r) 0)
      as (_ & _ & _ & _ & _ & _ & Hskip & _).
    exact (Hskip Hfew voteYes).
  - destruct (quorum_gate_threshold (voteAllBut 1) (voteAllBut 5) tt (fun r => r) 0)
      as (_ & _ & _ & _ & _ & _ & _ & _ & _ & Hdecision).
    rewrite Hdecision. reflexivity.
  - destruct (quorum_gate_threshold (voteFirst 4) (voteFirst 6) tt (fun r => r) 0)
      as (_ & _ & _ & _ & _ & _ & _ & _ & _ & Hdecision).
    rewrite Hdecision. reflexivity.
Defined.

(* ===================================================================== *)
(** * Accounts                                                            *)
(* ===================================================================== *)

Lemma updateUserBalance_users name delta db user :
  users db !! name = Some user ->
  users (snd (updateUserBalance name delta db))
  = <[name := add_balance delta user]> (users db).
Proof. intros Huser. unfold updateUserBalance. rewrite Huser. reflexivity. Qed.

Lemma updateUserBalance_listings name delta db :
  listings (snd (updateUserBalance name delta db)) = listings db.
Proof. unfold updateUserBalance. destruct (users db !! name); reflexivity. Qed.

Lemma verifyListing_users listingId db :
  users (snd (verifyListing listingId db)) = users db.
Proof. unfold verifyListing. destruct (listings db !! listingId); reflexivity. Qed.

(** C8. [registerUser] answers "Username already exists" when the name is
    taken (whatever the role), and "Invalid role" when the name is free
    and the role is neither buyer nor seller; every failure, these two
    included, leaves the database as it was, so the stored password, role
    and balance of an existing account are untouched.  With a free name
    and a permitted role it succeeds and stores a new account with that
    name, password and role and a zero balance, next to the accounts and
    listings that were there. *)
Theorem registerUser_spec (name pass r : string) (db : Database) :
  (is_Some (users db !! name) ->
   registerUser name pass r db
   = (mkRegisterResult false "Username already exists", db)) /\
  (users db !! name = None -> r ∉ ["buyer"; "seller"] ->
   registerUser name pass r db = (mkRegisterResult false "Invalid role", db)) /\
  (is_Some (users db !! name) \/ r ∉ ["buyer"; "seller"] ->
   reg_success (fst (registerUser name pass r db)) = false) /\
  (reg_success (fst (registerUser name pass r db)) = false ->
   snd (registerUser name pass r db) = db) /\
  (users db !! name = None -> r ∈ ["buyer"; "seller"] ->
   reg_success (fst (registerUser name pass r db)) = true /\
   users (snd (registerUser name pass r db)) !! name = Some (mkUser name pass r 0) /\
   (forall other, other <> name ->
      users (snd (registerUser name pass r db)) !! other = users db !! other) /\
   listings (snd (registerUser name pass r db)) = listings db).
Proof.
  unfold registerUser.
  split; [|split; [|split; [|split]]].
  - intros Htaken. rewrite bool_decide_eq_true_2 by assumption. reflexivity.
  - intros Hfree Hrole.
    rewrite bool_decide_eq_false_2 by (rewrite Hfree; apply is_Some_None).
    rewrite bool_decide_eq_false_2 by assumption. reflexivity.
  - intros [Htaken|Hrole].
    + rewrite bool_decide_eq_true_2 by assumption. reflexivity.
    + destruct (bool_decide (is_Some (users db !! name))); [reflexivity|].
      rewrite bool_decide_eq_false_2 by assumption. reflexivity.
  - destruct (bool_decide (is_Some (users db !! name))); [reflexivity|].
    destruct (bool_decide (r ∈ ["buyer"; "seller"])); simpl; [discriminate|reflexivity].
  - intros Hfree Hrole.
    rewrite bool_decide_eq_false_2 by (rewrite Hfree; apply is_Some_None).
    rewrite bool_decide_eq_true_2 by assumption. simpl.
    split; [reflexivity|]. split; [apply lookup_insert_eq|].
    split; [|reflexivity].
    intros other Hother. apply lookup_insert_ne. congruence.
Qed.

(** [registerUser_spec] on the initial database: the name seller1 is taken,
    the role admin is not permitted, and carol registers as a buyer. *)
Lemma registerUser_spec_witness :
  (is_Some (users new_Database !! "seller1") /\
   registerUser "seller1" "x" "admin" new_Database
   = (mkRegisterResult false "Username already exists", new_Database)) /\
  ((users new_Database !! "carol" = None /\ "admin" ∉ ["buyer"; "seller"]) /\
   registerUser "carol" "x" "admin" new_Database
   = (mkRegisterResult false "Invalid role", new_Database)) /\
  ((users new_Database !! "carol" = None /\ "buyer" ∈ ["buyer"; "seller"]) /\
   users (snd (registerUser "carol" "x" "buyer" new_Database)) !! "carol"
   = Some (mkUser "carol" "x" "buyer" 0)).
Proof.
  assert (is_Some (users new_Database !! "seller1")) as Htaken
    by (vm_compute; eexists; reflexivity).
  assert (users new_Database !! "carol" = None) as Hfree by (vm_compute; reflexivity).
  assert ("admin" ∉ ["buyer"; "seller"]) as Hbad
    by (apply (bool_decide_eq_false_1 ("admin" ∈ ["buyer"; "seller"])); reflexivity).
  assert ("buyer" ∈ ["buyer"; "seller"]) as Hgood
    by (apply (bool_decide_eq_true_1 ("buyer" ∈ ["buyer"; "seller"])); reflexivity).
  split; [|split].
  - split; [exact Htaken|].
    apply (registerUser_spec "seller1" "x" "admin" new_Database); exact Htaken.
  - split; [split; assumption|].
    apply (registerUser_spec "carol" "x" "admin" new_Database); assumption.
  - split; [split; assumption|].
    apply (registerUser_spec "carol" "x" "buyer" new_Database); assumption.
Defined.

(* ===================================================================== *)
(** * Listings and the marketplace view                                   *)
(* ===================================================================== *)

Lemma elem_of_getMarketplace item db :
  item ∈ getMarketplace db <->
  exists key l,
    listings db !! key = Some l /\ status l = verified /\ item = market_item l.
Proof.
  unfold getMarketplace. rewrite list_elem_of_fmap. split.
  - intros (l & -> & Hl). apply list_elem_of_filter in Hl as [Hstatus Hl].
    apply list_elem_of_fmap in Hl as ([key l'] & -> & Hl).
    apply elem_of_map_to_list in Hl. eauto.
  - intros (key & l & Hl & Hstatus & ->). exists l. split; [reflexivity|].
    apply list_elem_of_filter. split; [assumption|].
    apply list_elem_of_fmap. exists (key, l). split; [reflexivity|].
    apply elem_of_map_to_list. assumption.
Qed.

(** A listing that is not stored, or stored with a status other than
    verified, is not offered. *)
Lemma not_offered listingId db :
  ids_are_keys db ->
  (forall l, listings db !! listingId = Some l -> status l <> verified) ->
  forall item, item ∈ getMarketplace db -> item_id item <> listingId.
Proof.
  intros Hkeys Hstatus item Hitem Hid.
  apply elem_of_getMarketplace in Hitem as (key & l & Hl & Hverified & ->).
  simpl in Hid. rewrite (Hkeys key l Hl) in Hid. subst key.
  exact (Hstatus l Hl Hverified).
Qed.

Lemma ids_are_keys_insert l db :
  ids_are_keys db ->
  ids_are_keys (set_listings (insert (id l) l) db).
Proof.
  intros Hkeys key l'. simpl. rewrite lookup_insert.
  case_decide as Hkey.
  - intros [= <-]. exact Hkey.
  - apply Hkeys.
Qed.

Lemma ids_are_keys_delete listingId db :
  ids_are_keys db ->
  ids_are_keys (set_listings (delete listingId) db).
Proof.
  intros Hkeys key l. simpl. rewrite lookup_delete.
  case_decide; [discriminate|]. apply Hkeys.
Qed.

Lemma ids_are_keys_same_listings db db' :
  listings db' = listings db -> ids_are_keys db -> ids_are_keys db'.
Proof. unfold ids_are_keys. intros ->. auto. Qed.

(* ===================================================================== *)
(** * Purchases                                                           *)
(* ===================================================================== *)

Lemma updateUserBalance_alter name delta db :
  snd (updateUserBalance name delta db)
  = set_users (alter (add_balance delta) name) db.
Proof.
  unfold updateUserBalance, set_users.
  destruct (users db !! name) as [user|] eqn:Huser; simpl.
  - f_equal. apply map_eq. intros key.
    rewrite lookup_insert, lookup_alter.
    case_decide; [subst key; rewrite Huser; reflexivity|reflexivity].
  - destruct db as [us ls]; simpl in *. f_equal.
    apply map_eq. intros key. rewrite lookup_alter.
    case_decide; [subst key; rewrite Huser; reflexivity|reflexivity].
Qed.

Lemma purchaseCredit_success buyer listingId db l buyerUser :
  listings db !! listingId = Some l ->
  status l = verified ->
  users db !! buyer = Some buyerUser ->
  purchaseCredit buyer listingId db
  = (PurchaseSuccess (seller l) (amount l) (price l),
     mkDatabase (settle buyer (seller l) (amount l) (users db))
                (delete listingId (listings db))).
Proof.
  intros Hl Hstatus Hbuyer. unfold purchaseCredit.
  rewrite Hl, Hstatus, Hbuyer. simpl.
  rewrite !updateUserBalance_alter. reflexivity.
Qed.

Lemma purchaseCredit_failure buyer listingId db :
  listings db !! listingId = None \/
  (exists l, listings db !! listingId = Some l /\ status l <> verified) \/
  users db !! buyer = None ->
  exists message,
    purchaseCredit buyer listingId db = (PurchaseFailure message, db).
Proof.
  unfold purchaseCredit.
  intros [Habsent|[(l & Hl & Hstatus)|Hbuyer]].
  - rewrite Habsent. eauto.
  - rewrite Hl. rewrite bool_decide_eq_false_2 by assumption. simpl. eauto.
  - destruct (listings db !! listingId) as [l|]; [|eauto].
    destruct (negb (bool_decide (status l = verified))); [eauto|].
    rewrite Hbuyer. eauto.
Qed.





Section PurchaseFacts.
Context `{Hasher}.

Lemma addBlock_spec now payload chain :
  exists block,
    addBlock now payload chain = (block, chain ++ [block]) /\
    data block = payload /\
    timestamp block = now /\
    previousHash block = latestHash chain /\
    hash block = calculateHash block.
Proof.
  unfold addBlock. eexists. split; [reflexivity|].
  repeat split.
Qed.


End PurchaseFacts.

(* ===================================================================== *)
(** * Issuance                                                            *)
(* ===================================================================== *)

Section IssuanceFacts.
Context `{Hasher}.

Lemma set_database_same w : set_database (database w) w = w.
Proof. destruct w; reflexivity. Qed.

Lemma api_list_credit_accepted vote commit env name a p w user :
  name <> "" -> falsy_number a = false -> falsy_number p = false ->
  users (database w) !! name = Some user ->
  role user = "seller" ->
  api_list_credit_with vote commit env
    (mkListCreditBody (Some name) (Some a) (Some p)) w
  = (mkResponse 200 true "Carbon credit listed and undergoing verification"
                (Some (uuid env)),
     list_credit_callback env (proposed env name a p) name a p
       (decision vote commit env name a p)
       (set_database (snd (createListing (uuid env) (clock env 0) name a p (database w))) w)).
Proof.
  intros Hname Ha Hp Huser Hrole.
  unfold api_list_credit_with; simpl.
  unfold falsy_string. rewrite bool_decide_eq_false_2 by assumption.
  rewrite Ha, Hp. simpl.
  unfold getUser. rewrite Huser.
  rewrite bool_decide_eq_true_2 by assumption. simpl.
  rewrite startConsensus_callback. reflexivity.
Qed.

Lemma list_credit_callback_committed env name a p w user tx :
  users (database w) !! name = Some user ->
  exists block messages,
    list_credit_callback env (proposed env name a p) name a p (consensus_success tx)
      (set_database (snd (createListing (uuid env) (clock env 0) name a p (database w))) w)
    = mkWorld (blockchain w ++ [block])
        (mkDatabase
           (<[name := add_balance a user]> (users (database w)))
           (<[uuid env := set_status verified (proposed env name a p)]>
              (listings (database w))))
        (broadcasts w ++ messages) /\
    data block
    = carbon_credit_listing (uuid env) name a p (clock env 1) verified /\
    previousHash block = latestHash (blockchain w).
Proof.
  intros Huser.
  unfold list_credit_callback; simpl.
  set (block := mineBlock _ _ _).
  unfold updateUserBalance; simpl. rewrite Huser; simpl.
  unfold verifyListing; simpl. rewrite lookup_insert_eq; simpl.
  unfold getUser; simpl. rewrite lookup_insert_eq.
  unfold broadcastToClients; simpl.
  exists block. eexists. split; [|split; reflexivity].
  unfold set_listings, set_users, proposed; simpl.
  f_equal.
  - f_equal. apply insert_insert_eq.
  - rewrite <- !app_assoc. reflexivity.
Qed.

Lemma list_credit_callback_aborted env name a p w reason :
  list_credit_callback env (proposed env name a p) name a p (consensus_failure reason)
    (set_database (snd (createListing (uuid env) (clock env 0) name a p (database w))) w)
  = mkWorld (blockchain w)
      (mkDatabase
         (users (database w))
         (<[uuid env := set_status failed (proposed env name a p)]>
            (listings (database w))))
      (broadcasts w).
Proof.
  unfold list_credit_callback; simpl.
  rewrite lookup_insert_eq. unfold set_database, set_listings; simpl.
  rewrite insert_insert_eq. reflexivity.
Qed.


(** C4. The same request when the gate decides failure: every account,
    the issuer's included, is as before; the listing is stored as
    failed; the chain is as before; and no item of the marketplace view
    carries the listing's identifier. *)
Theorem issuance_aborted vote commit env name a p w user :
  name <> "" -> falsy_number a = false -> falsy_number p = false ->
  users (database w) !! name = Some user ->
  role user = "seller" ->
  ids_are_keys (database w) ->
  success (decision vote commit env name a p) = false ->
  let result :=
    api_list_credit_with vote commit env
      (mkListCreditBody (Some name) (Some a) (Some p)) w in
  let w' := snd result in
  users (database w') = users (database w) /\
  users (database w') !! name = Some user /\
  listings (database w') !! uuid env
  = Some (mkListing (uuid env) name a p failed (clock env 0)) /\
  blockchain w' = blockchain w /\
  (forall item, item ∈ api_marketplace w' -> item_id item <> uuid env).
Proof.
  intros Hname Ha Hp Huser Hrole Hkeys Hgate result w'. subst w' result.
  rewrite (api_list_credit_accepted vote commit env name a p w user) by assumption.
  destruct (decision vote commit env name a p) as [tx|reason]; [discriminate|].
  rewrite list_credit_callback_aborted. simpl.
  split; [reflexivity|]. split; [assumption|].
  split; [apply lookup_insert_eq|]. split; [reflexivity|].
  unfold api_marketplace; simpl.
  apply not_offered.
  - apply (ids_are_keys_insert (set_status failed (proposed env name a p))
             (mkDatabase (users (database w)) (listings (database w)))).
    intros key l. apply Hkeys.
  - simpl. intros l. rewrite lookup_insert_eq. intros [= <-]. discriminate.
Qed.

End IssuanceFacts.

Section SettlementFacts.
Context `{Hasher}.



(** C5. A request to buy that names a listing that is not stored, or a
    stored listing whose status is not verified, or a buyer that is not
    an account: [purchaseCredit] returns a failure and the database it
    was given, and the route answers with a failure and leaves the
    world (accounts, listings, chain and broadcasts) exactly as it
    was. *)
Theorem purchase_rejected env body buyer listingId w :
  buy_buyer body = Some buyer ->
  buy_listingId body = Some listingId ->
  listings (database w) !! listingId = None \/
  (exists l, listings (database w) !! listingId = Some l /\ status l <> verified) \/
  users (database w) !! buyer = None ->
  purchase_success (fst (purchaseCredit buyer listingId (database w))) = false /\
  snd (purchaseCredit buyer listingId (database w)) = database w /\
  res_success (fst (api_buy_credit env body w)) = false /\
  res_status (fst (api_buy_credit env body w)) = 400%nat /\
  snd (api_buy_credit env body w) = w.
Proof.
  intros Hbuyer Hlisting Hcase.
  destruct (purchaseCredit_failure buyer listingId (database w) Hcase)
    as [message Hfail].
  unfold api_buy_credit. rewrite Hbuyer, Hlisting, Hfail. simpl.
  split; [reflexivity|]. split; [reflexivity|].
  destruct (falsy_string buyer || falsy_string listingId); simpl;
    rewrite ?set_database_same; auto.
Qed.

End SettlementFacts.

(* ===================================================================== *)
(** * Prices                                                              *)
(* ===================================================================== *)

Section PriceFacts.
Context `{Hasher}.





End PriceFacts.

(* ===================================================================== *)
(** * The ledger                                                          *)
(* ===================================================================== *)

Section LedgerFacts.
Context `{Hasher}.

Lemma verifyFrom_snoc expectedPrevious i bs b :
  verifyFrom expectedPrevious i bs = None ->
  block_ok (expectedAfter expectedPrevious bs) b = true ->
  verifyFrom expectedPrevious i (bs ++ [b]) = None.
Proof.
  revert expectedPrevious i.
  induction bs as [|x rest IH]; intros expectedPrevious i Hverified Hblock.
  - simpl in *. unfold expectedAfter in Hblock; simpl in Hblock.
    rewrite Hblock. reflexivity.
  - simpl in *. destruct (block_ok expectedPrevious x); [|discriminate].
    apply IH; [assumption|].
    unfold expectedAfter in *. rewrite last_cons in Hblock.
    destruct (last rest); assumption.
Qed.

Lemma mineBlock_ok prev now payload :
  block_ok (Some prev) (mineBlock prev now payload) = true.
Proof.
  unfold block_ok, mineBlock, calculateHash; simpl.
  rewrite !bool_decide_eq_true_2 by reflexivity. reflexivity.
Qed.

Lemma appended_nonempty chain : appended chain -> exists b, last chain = Some b.
Proof.
  intros [|now payload chain' _].
  - exists createGenesisBlock. reflexivity.
  - simpl. rewrite last_snoc. eauto.
Qed.

(** When the puzzle has a solution below the bound, the nonce search
    returns the least one. *)
Lemma searchNonce_finds prev now payload fuel start n :
  (start <= n < start + fuel)%nat ->
  meetsDifficulty (digest prev now payload n) = true ->
  meetsDifficulty
    (digest prev now payload (searchNonce prev now payload fuel start)) = true /\
  (searchNonce prev now payload fuel start <= n)%nat.
Proof.
  revert start. induction fuel as [|fuel IH]; intros start Hrange Hn; [lia|].
  simpl. destruct (meetsDifficulty (digest prev now payload start)) eqn:Hstart.
  - split; [assumption|lia].
  - apply IH; [|assumption].
    destruct (decide (n = start)) as [->|Hne]; [congruence|lia].
Qed.

(** C9. On every chain that [addBlock] builds from a fresh ledger: the
    first block is the genesis block, whose previous hash is the
    constant 0; every later block records as previous hash the hash
    stored in the block before it, which is the digest of that block;
    and [verify] finds no break. *)
Theorem appended_chain_verifies chain :
  appended chain ->
  chain !! 0%nat = Some createGenesisBlock /\
  previousHash createGenesisBlock = "0" /\
  (forall i before b,
     chain !! i = Some before -> chain !! S i = Some b ->
     previousHash b = hash before /\ previousHash b = calculateHash before) /\
  (forall i b, chain !! i = Some b -> hash b = calculateHash b) /\
  verify chain = None.
Proof.
  intros Hchain.
  induction Hchain as [|now payload chain Hchain (Hfirst & _ & Hlinks & Hsealed & Hverify)].
  - split; [reflexivity|]. split; [reflexivity|].
    split; [|split].
    + intros [|i] before b Hbefore Hb; simpl in *; discriminate.
    + intros [|i] b Hb; simpl in Hb; [|discriminate].
      injection Hb as <-. reflexivity.
    + unfold verify, new_Blockchain; simpl.
      unfold block_ok, calculateHash; simpl.
      rewrite bool_decide_eq_true_2 by reflexivity. reflexivity.
  - destruct (appended_nonempty chain Hchain) as [tip Htip].
    assert (latestHash chain = hash tip) as Hlatest
      by (unfold latestHash; rewrite Htip; reflexivity).
    simpl. set (block := mineBlock (latestHash chain) now payload).
    assert (forall i b, (chain ++ [block]) !! i = Some b -> hash b = calculateHash b)
      as Hsealed'.
    { intros i b Hb. apply lookup_snoc_Some in Hb as [[_ Hb]|[_ <-]].
      - exact (Hsealed i b Hb).
      - reflexivity. }
    split; [apply lookup_app_l_Some; assumption|].
    split; [reflexivity|].
    split; [|split; [exact Hsealed'|]].
    + intros i before b Hbefore Hb.
      assert (previousHash b = hash before) as Hlink.
      { apply lookup_snoc_Some in Hb as [[Hlen Hb]|[Hlen <-]].
        - apply lookup_snoc_Some in Hbefore as [[_ Hbefore]|[Hlen' _]]; [|lia].
          exact (proj1 (Hlinks i before b Hbefore Hb)).
        - apply lookup_snoc_Some in Hbefore as [[_ Hbefore]|[Hlen' _]]; [|lia].
          rewrite last_lookup in Htip. rewrite <- Hlen in Htip. simpl in Htip.
          rewrite Hbefore in Htip. injection Htip as ->.
          simpl. exact Hlatest. }
      split; [exact Hlink|].
      rewrite Hlink. exact (Hsealed' i before Hbefore).
    + unfold verify. apply verifyFrom_snoc; [exact Hverify|].
      unfold expectedAfter. rewrite Htip, <- Hlatest.
      apply mineBlock_ok.
Qed.

End LedgerFacts.

(* ===================================================================== *)
(** * Reachable worlds                                                    *)
(* ===================================================================== *)

Section ReachableFacts.
Context `{Hasher}.

(** A request to list either changes nothing or is accepted. *)
Lemma api_list_credit_with_cases vote commit env body w :
  snd (api_list_credit_with vote commit env body w) = w \/
  exists name a p user,
    body = mkListCreditBody (Some name) (Some a) (Some p) /\
    name <> "" /\ falsy_number a = false /\ falsy_number p = false /\
    users (database w) !! name = Some user /\ role user = "seller".
Proof.
  destruct body as [[name|] [a|] [p|]]; try (left; reflexivity).
  destruct (decide (name = "")) as [->|Hname]; [left; reflexivity|].
  destruct (falsy_number a) eqn:Ha.
  { left. unfold api_list_credit_with; simpl. rewrite Ha, orb_true_r. reflexivity. }
  destruct (falsy_number p) eqn:Hp.
  { left. unfold api_list_credit_with; simpl. rewrite Hp, !orb_true_r. reflexivity. }
  destruct (users (database w) !! name) as [user|] eqn:Huser.
  2:{ left. unfold api_list_credit_with; simpl. unfold getUser. rewrite Huser.
      destruct (_ || _); reflexivity. }
  destruct (decide (role user = "seller")) as [Hrole|Hrole].
  2:{ left. unfold api_list_credit_with; simpl. unfold getUser. rewrite Huser.
      rewrite bool_decide_eq_false_2 by assumption.
      destruct (_ || _); reflexivity. }
  right. exists name, a, p, user. repeat split; assumption.
Qed.

(** A request to buy either leaves the database alone or settles a
    verified listing for an existing buyer. *)
Lemma api_buy_credit_database env body w :
  database (snd (api_buy_credit env body w)) = database w \/
  exists buyer listingId l buyerUser,
    listings (database w) !! listingId = Some l /\
    status l = verified /\
    users (database w) !! buyer = Some buyerUser /\
    database (snd (api_buy_credit env body w))
    = mkDatabase (settle buyer (seller l) (amount l) (users (database w)))
                 (delete listingId (listings (database w))).
Proof.
  destruct body as [[buyer|] [listingId|]]; try (left; reflexivity).
  unfold api_buy_credit; simpl.
  destruct (falsy_string buyer || falsy_string listingId); [left; reflexivity|].
  destruct (listings (database w) !! listingId) as [l|] eqn:Hl.
  2:{ left. unfold purchaseCredit. rewrite Hl. reflexivity. }
  destruct (decide (status l = verified)) as [Hstatus|Hstatus].
  2:{ left. unfold purchaseCredit. rewrite Hl.
      rewrite bool_decide_eq_false_2 by assumption. reflexivity. }
  destruct (users (database w) !! buyer) as [buyerUser|] eqn:Hb.
  2:{ left. unfold purchaseCredit. rewrite Hl, Hb.
      destruct (negb _); reflexivity. }
  right. exists buyer, listingId, l, buyerUser.
  rewrite (purchaseCredit_success buyer listingId (database w) l buyerUser) by assumption.
  repeat (split; [assumption|]).
  unfold getUser; simpl.
  destruct (settle _ _ _ _ !! buyer); [|reflexivity].
  destruct (settle _ _ _ _ !! seller l); reflexivity.
Qed.

Lemma api_register_listings body w :
  listings (database (snd (api_register body w))) = listings (database w).
Proof.
  destruct body as [[name|] [pass|] [r|]]; try reflexivity.
  unfold api_register; simpl.
  destruct (_ || _); [reflexivity|].
  unfold registerUser.
  destruct (bool_decide (is_Some _)); [reflexivity|].
  destruct (negb _); reflexivity.
Qed.

Lemma handle_ids_are_keys r w :
  ids_are_keys (database w) -> ids_are_keys (database (snd (handle r w))).
Proof.
  intros Hkeys. destruct r as [body|env body|env body]; simpl.
  - apply (ids_are_keys_same_listings (database w)); [|assumption].
    apply api_register_listings.
  - unfold api_list_credit.
    destruct (api_list_credit_with_cases
                (simulateNodeVote (random env)) (simulateNodeCommit (random env)) env body w)
      as [->|(name & a & p & user & -> & Hname & Ha & Hp & Huser & Hrole)];
      [assumption|].
    rewrite (api_list_credit_accepted _ _ env name a p w user) by assumption.
    cbn [snd].
    destruct (decision _ _ env name a p) as [tx|reason].
    + destruct (list_credit_callback_committed env name a p w user tx Huser)
        as (block & messages & -> & _).
      apply (ids_are_keys_insert (set_status verified (proposed env name a p))
               (mkDatabase (<[name := add_balance a user]> (users (database w)))
                           (listings (database w)))).
      intros key l. apply Hkeys.
    + rewrite list_credit_callback_aborted.
      apply (ids_are_keys_insert (set_status failed (proposed env name a p))
               (mkDatabase (users (database w)) (listings (database w)))).
      intros key l. apply Hkeys.
  - destruct (api_buy_credit_database env body w)
      as [->|(buyer & listingId & l & bu & _ & _ & _ & ->)]; [assumption|].
    apply (ids_are_keys_delete listingId
             (mkDatabase (settle buyer (seller l) (amount l) (users (database w)))
                         (listings (database w)))).
    intros key l'. apply Hkeys.
Qed.

Lemma run_snoc rs r : run (rs ++ [r]) = snd (handle r (run rs)).
Proof. unfold run. rewrite fold_left_app. reflexivity. Qed.

(** An invariant of the initial world that every request preserves holds
    in every reachable world. *)
Lemma reachable_ind (P : World -> Prop) :
  P new_World ->
  (forall r w, P w -> P (snd (handle r w))) ->
  forall w, reachable w -> P w.
Proof.
  intros Hnew Hstep w [rs ->].
  induction rs as [|r rs IH] using rev_ind.
  - exact Hnew.
  - rewrite run_snoc. apply Hstep. exact IH.
Qed.

Lemma reachable_ids_are_keys w : reachable w -> ids_are_keys (database w).
Proof.
  apply (reachable_ind (fun w => ids_are_keys (database w))).
  - intros key l Hl. simpl in Hl. rewrite lookup_empty in Hl. discriminate.
  - intros r w' Hkeys. apply handle_ids_are_keys. exact Hkeys.
Qed.

End ReachableFacts.

(* ===================================================================== *)
(** * Balances                                                            *)
(* ===================================================================== *)

(** Addition of rationals commutes on the nose, which lets the sum over a
    map be taken in any order. *)
Lemma Qplus_swap (y a b : Q) : (y + a + b)%Q = (y + b + a)%Q.
Proof.
  destruct y as [yn yd], a as [an ad], b as [bn bd].
  unfold Qplus; simpl. f_equal.
  - rewrite !Pos2Z.inj_mul. ring.
  - rewrite <- !Pos.mul_assoc. f_equal. apply Pos.mul_comm.
Qed.

Lemma count_listing_swap name l1 l2 y :
  count_listing name l1 (count_listing name l2 y)
  = count_listing name l2 (count_listing name l1 y).
Proof.
  unfold count_listing.
  destruct (bool_decide _), (bool_decide _); try reflexivity.
  apply Qplus_swap.
Qed.

Lemma listed_insert_fresh name key l (ls : gmap string Listing) :
  ls !! key = None ->
  listed name (<[key := l]> ls) = count_listing name l (listed name ls).
Proof.
  intros Hfresh. unfold listed.
  apply (map_fold_insert_L (fun _ l acc => count_listing name l acc)); [|assumption].
  intros. apply count_listing_swap.
Qed.

Lemma listed_delete name key l (ls : gmap string Listing) :
  ls !! key = Some l ->
  listed name ls = count_listing name l (listed name (delete key ls)).
Proof.
  intros Hl. unfold listed.
  apply (map_fold_delete_L (fun _ l acc => count_listing name l acc)); [|assumption].
  intros. apply count_listing_swap.
Qed.

Lemma count_listing_le name l acc :
  (0 < amount l)%Q -> (acc <= count_listing name l acc)%Q.
Proof.
  intros Hpos. unfold count_listing. destruct (bool_decide _); lra.
Qed.

Lemma listed_nonneg name ls : amounts_positive ls -> (0 <= listed name ls)%Q.
Proof.
  unfold listed.
  apply (map_fold_weak_ind (fun r m => amounts_positive m -> (0 <= r)%Q)).
  - intros _. lra.
  - intros key l m r Hfresh IH Hpos.
    assert (0 <= r)%Q as Hr.
    { apply IH. intros k' l' Hl'. apply (Hpos k' l').
      rewrite lookup_insert_ne; [assumption|]. intros <-. congruence. }
    pose proof (count_listing_le name l r (Hpos key l (lookup_insert_eq m key l))).
    lra.
Qed.

Lemma listed_none name ls :
  (forall key l, ls !! key = Some l -> seller l <> name) -> listed name ls = 0%Q.
Proof.
  unfold listed.
  apply (map_fold_weak_ind
           (fun r m => (forall key l, m !! key = Some l -> seller l <> name) -> r = 0%Q)).
  - reflexivity.
  - intros key l m r Hfresh IH Hother.
    rewrite IH.
    + unfold count_listing. rewrite bool_decide_eq_false_2; [reflexivity|].
      intros [Hs _]. exact (Hother key l (lookup_insert_eq m key l) Hs).
    + intros k' l' Hl'. apply (Hother k' l').
      rewrite lookup_insert_ne; [assumption|]. intros <-. congruence.
Qed.

Lemma amounts_positive_delete key ls :
  amounts_positive ls -> amounts_positive (delete key ls).
Proof.
  intros Hpos k l. rewrite lookup_delete. case_decide; [discriminate|]. apply Hpos.
Qed.

Lemma amounts_positive_insert key l ls :
  (0 < amount l)%Q -> amounts_positive ls -> amounts_positive (<[key := l]> ls).
Proof.
  intros Hl Hpos k l'. rewrite lookup_insert. case_decide.
  - intros [= <-]. assumption.
  - apply Hpos.
Qed.

Lemma listed_delete_le name key ls :
  amounts_positive ls -> (listed name (delete key ls) <= listed name ls)%Q.
Proof.
  intros Hpos. destruct (ls !! key) as [l|] eqn:Hl.
  - rewrite (listed_delete name key l ls Hl).
    apply count_listing_le. exact (Hpos key l Hl).
  - rewrite delete_id by assumption. lra.
Qed.

Lemma listed_insert name key l ls :
  listed name (<[key := l]> ls) = count_listing name l (listed name (delete key ls)).
Proof.
  rewrite <- (insert_delete_eq ls key l).
  apply listed_insert_fresh. apply lookup_delete_eq.
Qed.

Lemma covered_new : covered new_Database.
Proof.
  split.
  - intros key l Hl. simpl in Hl. rewrite lookup_empty in Hl. discriminate.
  - intros key l Hl. simpl in Hl. rewrite lookup_empty in Hl. discriminate.
  - intros name u Hu. simpl. unfold listed. rewrite map_fold_empty.
    simpl in Hu. rewrite lookup_insert in Hu. case_decide.
    + injection Hu as <-. simpl. lra.
    + rewrite lookup_insert in Hu. case_decide.
      * injection Hu as <-. simpl. lra.
      * rewrite lookup_empty in Hu. discriminate.
Qed.

Lemma registerUser_covered name pass r db :
  covered db -> covered (snd (registerUser name pass r db)).
Proof.
  intros [Hamounts Hsellers Hbalances]. unfold registerUser.
  destruct (bool_decide (is_Some (users db !! name))) eqn:Htaken; [split; assumption|].
  destruct (negb _); [split; assumption|].
  apply bool_decide_eq_false in Htaken.
  split; simpl.
  - assumption.
  - intros key l Hl. rewrite lookup_insert. case_decide; [eauto|].
    exact (Hsellers key l Hl).
  - intros n u. rewrite lookup_insert. case_decide as Hn.
    + intros [= <-]. subst n. simpl.
      rewrite listed_none; [lra|].
      intros key l Hl Hseller. apply Htaken. rewrite <- Hseller.
      exact (Hsellers key l Hl).
    + apply Hbalances.
Qed.

Lemma covered_committed user key l db :
  (0 < amount l)%Q ->
  users db !! seller l = Some user ->
  covered db ->
  covered (mkDatabase (<[seller l := add_balance (amount l) user]> (users db))
                      (<[key := l]> (listings db))).
Proof.
  intros Ha Huser [Hamounts Hsellers Hbalances].
  split; simpl.
  - apply amounts_positive_insert; assumption.
  - intros k l'. rewrite lookup_insert. case_decide.
    + intros [= <-]. rewrite lookup_insert_eq. eauto.
    + intros Hl'. rewrite lookup_insert. case_decide; [eauto|].
      exact (Hsellers k l' Hl').
  - intros n u. rewrite listed_insert.
    pose proof (listed_delete_le n key (listings db) Hamounts) as Hle.
    rewrite lookup_insert. case_decide as Hn.
    + intros [= <-]. subst n. simpl.
      pose proof (Hbalances (seller l) user Huser) as Hb.
      unfold count_listing. destruct (bool_decide _); lra.
    + intros Hu. pose proof (Hbalances n u Hu) as Hb.
      unfold count_listing. rewrite bool_decide_eq_false_2; [lra|].
      intros [Hs _]. congruence.
Qed.

Lemma covered_aborted key l db :
  (0 < amount l)%Q ->
  status l = failed ->
  is_Some (users db !! seller l) ->
  covered db ->
  covered (mkDatabase (users db) (<[key := l]> (listings db))).
Proof.
  intros Ha Hstatus Hseller [Hamounts Hsellers Hbalances].
  split; simpl.
  - apply amounts_positive_insert; assumption.
  - intros k l'. rewrite lookup_insert. case_decide.
    + intros [= <-]. assumption.
    + apply Hsellers.
  - intros n u Hu. rewrite listed_insert.
    pose proof (listed_delete_le n key (listings db) Hamounts) as Hle.
    pose proof (Hbalances n u Hu) as Hb.
    unfold count_listing. rewrite bool_decide_eq_false_2; [lra|].
    intros [_ Hv]. congruence.
Qed.

Lemma covered_settled buyer key l db :
  listings db !! key = Some l ->
  status l = verified ->
  covered db ->
  covered (mkDatabase (settle buyer (seller l) (amount l) (users db))
                      (delete key (listings db))).
Proof.
  intros Hl Hstatus [Hamounts Hsellers Hbalances].
  pose proof (Hamounts key l Hl) as Hq.
  split; simpl.
  - apply amounts_positive_delete. assumption.
  - intros k l'. rewrite lookup_delete. case_decide; [discriminate|].
    intros Hl'. unfold settle. rewrite !lookup_alter_is_Some.
    exact (Hsellers k l' Hl').
  - intros n u'.
    pose proof (listed_delete_le n key (listings db) Hamounts) as Hle.
    pose proof (listed_delete n key l (listings db) Hl) as Hsplit.
    unfold count_listing in Hsplit. unfold settle.
    destruct (decide (seller l = n)) as [Hs|Hs].
    + rewrite bool_decide_eq_true_2 in Hsplit by (split; assumption).
      subst n.
      destruct (decide (buyer = seller l)) as [->|Hb].
      * rewrite !lookup_alter_eq.
        destruct (users db !! seller l) as [u|] eqn:Hu; [|discriminate].
        intros [= <-]. pose proof (Hbalances _ u Hu) as Hbal.
        rewrite Hsplit in Hbal. simpl. lra.
      * rewrite lookup_alter_ne by assumption. rewrite lookup_alter_eq.
        destruct (users db !! seller l) as [u|] eqn:Hu; [|discriminate].
        intros [= <-]. pose proof (Hbalances _ u Hu) as Hbal.
        rewrite Hsplit in Hbal. simpl. lra.
    + destruct (decide (buyer = n)) as [->|Hb].
      * rewrite lookup_alter_eq. rewrite lookup_alter_ne by assumption.
        destruct (users db !! n) as [u|] eqn:Hu; [|discriminate].
        intros [= <-]. pose proof (Hbalances _ u Hu). simpl. lra.
      * rewrite !lookup_alter_ne by assumption.
        intros Hu. pose proof (Hbalances _ u' Hu). lra.
Qed.

Section BalanceFacts.
Context `{Hasher}.

Lemma api_register_database body w :
  database (snd (api_register body w)) = database w \/
  exists name pass r,
    database (snd (api_register body w)) = snd (registerUser name pass r (database w)).
Proof.
  destruct body as [[name|] [pass|] [r|]]; try (left; reflexivity).
  unfold api_register; simpl.
  destruct (_ || _); [left; reflexivity|].
  right. exists name, pass, r.
  destruct (registerUser name pass r (database w)) as [result db].
  destruct (reg_success result); reflexivity.
Qed.

Lemma handle_covered r w :
  asks_positive r ->
  covered (database w) -> covered (database (snd (handle r w))).
Proof.
  intros Hasks Hcovered.
  destruct r as [body|env body|env body]; simpl.
  - destruct (api_register_database body w) as [->|(name & pass & r & ->)];
      [assumption|].
    apply registerUser_covered. assumption.
  - unfold api_list_credit.
    destruct (api_list_credit_with_cases
                (simulateNodeVote (random env)) (simulateNodeCommit (random env)) env body w)
      as [->|(name & a & p & user & -> & Hname & Ha & Hp & Huser & Hrole)];
      [assumption|].
    simpl in Hasks.
    rewrite (api_list_credit_accepted _ _ env name a p w user) by assumption.
    cbn [snd].
    destruct (decision _ _ env name a p) as [tx|reason].
    + destruct (list_credit_callback_committed env name a p w user tx Huser)
        as (block & messages & -> & _).
      apply (covered_committed user (uuid env)
               (set_status verified (proposed env name a p)) (database w));
        assumption.
    + rewrite list_credit_callback_aborted.
      apply (covered_aborted (uuid env)
               (set_status failed (proposed env name a p)) (database w));
        [assumption|reflexivity|simpl; eauto|assumption].
  - destruct (api_buy_credit_database env body w)
      as [->|(buyer & listingId & l & bu & Hl & Hstatus & _ & ->)]; [assumption|].
    apply covered_settled; assumption.
Qed.

End BalanceFacts.

(* ===================================================================== *)
(** * Missing range checks                                                *)
(* ===================================================================== *)

(** A zero or absent amount or price is turned away before anything
    happens. *)
Lemma api_list_credit_requires_fields `{Hasher} env body w :
  missing falsy_number (list_amount body) = true \/
  missing falsy_number (list_price body) = true ->
  api_list_credit env body w
  = (mkResponse 400 false "All fields are required" None, w).
Proof.
  unfold api_list_credit, api_list_credit_with.
  destruct body as [[name|] [a|] [p|]]; simpl; try reflexivity;
    intros [Hmissing|Hmissing]; try discriminate;
    rewrite Hmissing, ?orb_true_r; reflexivity.
Qed.

(** C6. The route has no check of the sign, which the page that sends the
    request has (an amount below 1 or a price below 0.01 is not sent): on
    the initial world, a request of seller1 for -5 credits at price 1 that
    the gate commits is answered with success, stores a verified listing
    of -5 credits, takes the seller's balance to -5 and appends a block;
    and so does a request for 5 credits at price -1, with a balance
    of 5. *)
Theorem negative_amount_is_listed `{Hasher} :
  let negativeAmount :=
    api_list_credit (testEnv "L1" allYes)
      (mkListCreditBody (Some "seller1") (Some (-5)%Q) (Some 1%Q)) new_World in
  let negativePrice :=
    api_list_credit (testEnv "L1" allYes)
      (mkListCreditBody (Some "seller1") (Some 5%Q) (Some (-1)%Q)) new_World in
  (res_success (fst negativeAmount) = true /\
   listings (database (snd negativeAmount)) !! "L1"
   = Some (mkListing "L1" "seller1" (-5) 1 verified (testClock 0)) /\
   balanceOf "seller1" (snd negativeAmount) = Some (-5)%Q /\
   length (blockchain (snd negativeAmount)) = 2%nat) /\
  (res_success (fst negativePrice) = true /\
   listings (database (snd negativePrice)) !! "L1"
   = Some (mkListing "L1" "seller1" 5 (-1) verified (testClock 0)) /\
   balanceOf "seller1" (snd negativePrice) = Some 5%Q /\
   length (blockchain (snd negativePrice)) = 2%nat).
Proof.
  repeat split; vm_compute; reflexivity.
Qed.

(** C7. Balances below zero are reachable.  One committed request for -5
    credits leaves seller1 at -5.  And after committed requests for 5 and
    for -5 credits seller1 stands at 0, and the purchase of the first
    listing by buyer1 takes seller1 from 0 to -5. *)
Theorem negative_balance_is_reachable `{Hasher} :
  let issued := run [listRequest "L1" "seller1" (-5) 1 allYes] in
  let listed :=
    [listRequest "L1" "seller1" 5 1 allYes; listRequest "L2" "seller1" (-5) 1 allYes] in
  let bought := run (listed ++ [buyRequest "buyer1" "L1"]) in
  (reachable issued /\
   balanceOf "seller1" issued = Some (-5)%Q /\ (-5 < 0)%Q) /\
  (reachable (run listed) /\ reachable bought /\
   balanceOf "seller1" (run listed) = Some 0%Q /\
   balanceOf "seller1" bought = Some (-5)%Q).
Proof.
  repeat split; try (eexists; reflexivity); vm_compute; reflexivity.
Qed.

(* ===================================================================== *)
(** * Registration and login                                              *)
(* ===================================================================== *)

Section LoginFacts.
Context `{Hasher}.

Lemma falsy_string_false s : falsy_string s = false <-> s <> "".
Proof. unfold falsy_string. apply bool_decide_eq_false. Qed.

(** The fields of a registration that is answered with 200. *)
Lemma api_register_ok name pass r w :
  res_status (fst (api_register (mkRegisterBody (Some name) (Some pass) (Some r)) w))
  = 200%nat ->
  name <> "" /\ pass <> "" /\ r <> "" /\
  users (database w) !! name = None /\ r ∈ ["buyer"; "seller"] /\
  snd (api_register (mkRegisterBody (Some name) (Some pass) (Some r)) w)
  = set_database (set_users (insert name (mkUser name pass r 0)) (database w)) w.
Proof.
  unfold api_register; simpl.
  destruct (falsy_string name) eqn:Hn; [discriminate|].
  destruct (falsy_string pass) eqn:Hp; [discriminate|].
  destruct (falsy_string r) eqn:Hr; [discriminate|]. simpl.
  apply falsy_string_false in Hn, Hp, Hr.
  unfold registerUser.
  destruct (bool_decide (is_Some (users (database w) !! name))) eqn:Htaken;
    [discriminate|].
  destruct (bool_decide (r ∈ ["buyer"; "seller"])) eqn:Hrole; simpl; [|discriminate].
  intros _. apply bool_decide_eq_false in Htaken. apply bool_decide_eq_true in Hrole.
  repeat split; try assumption.
  destruct (users (database w) !! name) eqn:Hu; [|reflexivity].
  exfalso. apply Htaken. eauto.
Qed.

(** X1. After a registration that the server answers with 200, a login
    with the same name and password is answered with 200 and the name,
    the role and a zero balance; a login with that name and any other
    password is refused. *)
Theorem register_then_login name pass r w :
  res_status (fst (api_register (mkRegisterBody (Some name) (Some pass) (Some r)) w))
  = 200%nat ->
  let w' := snd (api_register (mkRegisterBody (Some name) (Some pass) (Some r)) w) in
  api_login (mkLoginBody (Some name) (Some pass)) w' = user_json 200 name r 0 /\
  api_user name w' = user_json 200 name r 0 /\
  forall other, other <> pass ->
    exists status message,
      api_login (mkLoginBody (Some name) (Some other)) w' = user_error status message.
Proof.
  intros Hok w'. subst w'.
  destruct (api_register_ok name pass r w Hok) as (Hn & Hp & _ & _ & _ & ->).
  unfold api_login, api_user, authenticateUser, getUser; simpl.
  rewrite lookup_insert_eq; simpl.
  rewrite (proj2 (falsy_string_false name) Hn), (proj2 (falsy_string_false pass) Hp).
  rewrite bool_decide_eq_true_2 by reflexivity. simpl.
  split; [reflexivity|]. split; [reflexivity|].
  intros other Hother.
  destruct (falsy_string other); simpl; [eauto|].
  rewrite bool_decide_eq_false_2 by congruence. eauto.
Qed.

Lemma api_login_cases name pass w :
  name <> "" -> pass <> "" ->
  (forall u, users (database w) !! name = Some u -> password u = pass ->
     api_login (mkLoginBody (Some name) (Some pass)) w
     = user_json 200 (username u) (role u) (balance u)) /\
  (users (database w) !! name = None \/
   (exists u, users (database w) !! name = Some u /\ password u <> pass) ->
   api_login (mkLoginBody (Some name) (Some pass)) w
   = user_error 401 "Invalid credentials").
Proof.
  intros Hn Hp. unfold api_login, authenticateUser; simpl.
  rewrite (proj2 (falsy_string_false name) Hn), (proj2 (falsy_string_false pass) Hp).
  simpl. split.
  - intros u Hu Hpass. rewrite Hu. rewrite bool_decide_eq_true_2 by assumption.
    reflexivity.
  - intros [Hnone|(u & Hu & Hpass)].
    + rewrite Hnone. reflexivity.
    + rewrite Hu. rewrite bool_decide_eq_false_2 by assumption. reflexivity.
Qed.

(** X2. A login that names both fields is answered with 200 exactly when
    the account exists and the password is the stored one, and then with
    the stored name, role and balance; an unknown name and a wrong
    password get the same answer, 401 with "Invalid credentials". *)
Theorem login_checks_password name pass w :
  name <> "" -> pass <> "" ->
  (forall u, users (database w) !! name = Some u -> password u = pass ->
     api_login (mkLoginBody (Some name) (Some pass)) w
     = user_json 200 (username u) (role u) (balance u)) /\
  (users (database w) !! name = None \/
   (exists u, users (database w) !! name = Some u /\ password u <> pass) ->
   api_login (mkLoginBody (Some name) (Some pass)) w
   = user_error 401 "Invalid credentials").
Proof. exact (api_login_cases name pass w). Qed.

End LoginFacts.

(* ===================================================================== *)
(** * The database on its own                                             *)
(* ===================================================================== *)



(** X5. The marketplace offers exactly the verified listings, each once:
    an item is offered if and only if it is the public part of a stored
    listing whose status is verified, and when listings are stored under
    their identifiers no two items share an identifier. *)
Theorem marketplace_exact db :
  (forall item,
     item ∈ getMarketplace db <->
     exists key l,
       listings db !! key = Some l /\ status l = verified /\ item = market_item l) /\
  (ids_are_keys db -> NoDup (item_id <$> getMarketplace db)).
Proof.
  split; [intros item; apply elem_of_getMarketplace|].
  intros Hkeys. unfold getMarketplace.
  rewrite <- list_fmap_compose.
  assert (forall kl, kl ∈ map_to_list (listings db) -> id (snd kl) = fst kl) as Hid.
  { intros [key l] Hin. apply elem_of_map_to_list in Hin. exact (Hkeys key l Hin). }
  pose proof (NoDup_fst_map_to_list (listings db)) as Hnodup.
  revert Hid Hnodup.
  generalize (map_to_list (listings db)). intros kls.
  induction kls as [|[key l] kls IH]; intros Hid Hnodup; simpl.
  - constructor.
  - rewrite fmap_cons in Hnodup. apply NoDup_cons in Hnodup as [Hfresh Hnodup].
    assert (forall kl, kl ∈ kls -> id (snd kl) = fst kl) as Hid'.
    { intros kl Hin. apply Hid. apply list_elem_of_further. exact Hin. }
    specialize (IH Hid' Hnodup).
    rewrite filter_cons. simpl. case_decide as Hstatus; [|exact IH].
    rewrite fmap_cons. apply NoDup_cons. split; [|exact IH].
    simpl. intros Hin. apply Hfresh.
    apply list_elem_of_fmap in Hin as (l' & Hl' & Hin).
    apply list_elem_of_filter in Hin as [_ Hin].
    apply list_elem_of_fmap in Hin as ([key' l''] & -> & Hin).
    simpl in Hl'. apply list_elem_of_fmap. exists (key', l''). split; [|exact Hin].
    pose proof (Hid' (key', l'') Hin) as Hkey'.
    pose proof (Hid (key, l) (list_elem_of_here _ _)) as Hkey.
    simpl in *. congruence.
Qed.

(* ===================================================================== *)
(** * The quorum gate, for any set of validators                          *)
(* ===================================================================== *)

Section GateFacts.
Context {Tx : Type}.

Lemma yesVotes_bounds random k n :
  (0 <= yesVotes random k n <= Z.of_nat n)%Z.
Proof.
  revert k. induction n as [|n IH]; intros k; simpl yesVotes.
  - lia.
  - specialize (IH (S k)). destruct (Qgtb _ _); lia.
Qed.

Lemma forEachVote_random random ns (tx : Tx) count k :
  forEachVote (simulateNodeVote random) ns tx count k
  = ((count + yesVotes random k (length ns))%Z, (k + length ns)%nat).
Proof.
  revert count k. induction ns as [|node rest IH]; intros count k; simpl.
  - f_equal; lia.
  - rewrite IH. destruct (Qgtb _ _); f_equal; lia.
Qed.

(** X6. With the votes of the server, a phase over [N] validators makes
    [N] calls of [Math.random()] and counts those above 0.2.  The
    prepare phase reads the calls [k] to [k+N-1]; the commit phase, run
    only after a prepare phase that reached the threshold, reads the next
    [N].  The decision is success exactly when both counts reach the
    threshold, and a run makes [N] calls when the prepare phase fails and
    [2N] otherwise. *)
Theorem consensus_reads_fresh_draws {A} random this (tx : Tx)
    (callback : ConsensusResult Tx -> A) k :
  let N := length (nodes this) in
  let T := requiredVotes this in
  let prepare := yesVotes random k N in
  let commit := yesVotes random (k + N) N in
  (0 <= prepare <= Z.of_nat N)%Z /\
  collectPrepareMessages this (simulateNodeVote random) tx k
  = (mkTally (T <=? prepare)%Z prepare T, (k + N)%nat) /\
  collectCommitMessages this (simulateNodeCommit random) tx (k + N)
  = (mkTally (T <=? commit)%Z commit T, (k + N + N)%nat) /\
  startConsensus this (simulateNodeVote random) (simulateNodeCommit random) tx callback k
  = if (T <=? prepare)%Z then
      if (T <=? commit)%Z then (callback (consensus_success tx), (k + N + N)%nat)
      else (callback (consensus_failure "Commit phase failed"), (k + N + N)%nat)
    else (callback (consensus_failure "Prepare phase failed"), (k + N)%nat).
Proof.
  intros N T prepare commit. subst N T prepare commit.
  split; [apply yesVotes_bounds|].
  assert (forall j,
    collectMessages this (simulateNodeVote random) tx j
    = (mkTally (requiredVotes this <=? yesVotes random j (length (nodes this)))%Z
               (yesVotes random j (length (nodes this))) (requiredVotes this),
       (j + length (nodes this))%nat)) as Hphase.
  { intros j. unfold collectMessages. rewrite forEachVote_random. reflexivity. }
  split; [apply Hphase|]. split; [apply Hphase|].
  unfold startConsensus, collectPrepareMessages, collectCommitMessages.
  change (simulateNodeCommit random) with (simulateNodeVote (Tx := Tx) random).
  rewrite Hphase. simpl reached.
  destruct (requiredVotes this <=? _)%Z; [|reflexivity].
  rewrite Hphase. simpl reached.
  destruct (requiredVotes this <=? _)%Z; reflexivity.
Qed.

Lemma requiredVotes_bounds this :
  nodes this <> [] ->
  (1 <= requiredVotes this <= Z.of_nat (length (nodes this)))%Z.
Proof.
  intros Hnodes. unfold requiredVotes.
  destruct (nodes this) as [|node rest]; [congruence|]. simpl length.
  pose proof (Z.div_pos (Z.of_nat (S (length rest)) - 1) 3) as Hpos.
  pose proof (Z.mul_div_le (Z.of_nat (S (length rest)) - 1) 3) as Hle.
  lia.
Qed.

(** X7. Whatever the list of validators is: when there is at least one,
    the threshold lies between 1 and their number, so that votes that
    are all YES commit and prepare votes that are all NO abort; and with
    no validator at all the threshold is -1 and every proposal commits. *)
Theorem unanimity_decides {A} this vote commit (tx : Tx)
    (callback : ConsensusResult Tx -> A) k :
  (nodes this <> [] ->
   (1 <= requiredVotes this <= Z.of_nat (length (nodes this)))%Z) /\
  (always true vote -> always true commit ->
   fst (startConsensus this vote commit tx callback k)
   = callback (consensus_success tx)) /\
  (nodes this <> [] -> always false vote ->
   fst (startConsensus this vote commit tx callback k)
   = callback (consensus_failure "Prepare phase failed")) /\
  (nodes this = [] ->
   requiredVotes this = (-1)%Z /\
   fst (startConsensus this vote commit tx callback k)
   = callback (consensus_success tx)).
Proof.
  split; [apply requiredVotes_bounds|].
  assert (forall v j, always true v ->
            reached (fst (collectMessages this v tx j)) = true) as Hyes.
  { intros v j Hv. rewrite collectMessages_reached.
    rewrite (collectMessages_always true) by assumption.
    apply Z.leb_le. unfold requiredVotes.
    destruct (nodes this) as [|node rest]; [discriminate|]. simpl length.
    pose proof (Z.mul_div_le (Z.of_nat (S (length rest)) - 1) 3). lia. }
  split; [|split].
  - intros Hvote Hcommit.
    rewrite startConsensus_callback. cbn [fst]. f_equal.
    unfold startConsensus, collectPrepareMessages, collectCommitMessages.
    pose proof (Hyes vote k Hvote) as Hp.
    destruct (collectMessages this vote tx k) as [p k1]; simpl in Hp. rewrite Hp.
    pose proof (Hyes commit k1 Hcommit) as Hc.
    destruct (collectMessages this commit tx k1) as [c k2]; simpl in Hc. rewrite Hc.
    reflexivity.
  - intros Hnodes Hvote.
    rewrite startConsensus_prepare_failed; [reflexivity|].
    unfold collectPrepareMessages. rewrite collectMessages_reached.
    rewrite (collectMessages_always false) by assumption.
    apply Z.leb_gt. pose proof (requiredVotes_bounds this Hnodes). lia.
  - intros Hnodes. unfold requiredVotes. rewrite Hnodes.
    split; [reflexivity|].
    unfold startConsensus, collectPrepareMessages, collectCommitMessages,
      collectMessages, requiredVotes.
    rewrite Hnodes. reflexivity.
Qed.

End GateFacts.

(* ===================================================================== *)
(** * What a request can do                                               *)
(* ===================================================================== *)

Section TransitionFacts.
Context `{Hasher}.

Lemma api_register_transition body w :
  Transition w (POST_register body) (snd (api_register body w)).
Proof.
  destruct body as [[name|] [pass|] [r|]]; try apply nothing_happens.
  unfold api_register; simpl.
  destruct (falsy_string name) eqn:Hn; [apply nothing_happens|].
  destruct (falsy_string pass) eqn:Hp; [apply nothing_happens|].
  destruct (falsy_string r) eqn:Hr; [apply nothing_happens|]. simpl.
  apply falsy_string_false in Hn, Hp, Hr.
  unfold registerUser.
  destruct (bool_decide (is_Some (users (database w) !! name))) eqn:Htaken; simpl.
  { rewrite set_database_same. apply nothing_happens. }
  destruct (bool_decide (r ∈ ["buyer"; "seller"])) eqn:Hrole; simpl.
  2:{ rewrite set_database_same. apply nothing_happens. }
  apply bool_decide_eq_false in Htaken. apply bool_decide_eq_true in Hrole.
  apply account_added; try assumption.
  destruct (users (database w) !! name) eqn:Hu; [|reflexivity].
  exfalso. apply Htaken. eauto.
Qed.

Lemma api_list_credit_transition env body w :
  Transition w (POST_list_credit env body) (snd (api_list_credit env body w)).
Proof.
  unfold api_list_credit.
  destruct (api_list_credit_with_cases
              (simulateNodeVote (random env)) (simulateNodeCommit (random env)) env body w)
    as [->|(name & a & p & user & -> & Hname & Ha & Hp & Huser & Hrole)];
    [apply nothing_happens|].
  rewrite (api_list_credit_accepted _ _ env name a p w user) by assumption.
  cbn [snd].
  destruct (decision _ _ env name a p) as [tx|reason].
  - replace (list_credit_callback _ _ _ _ _ _ _) with
      (let block :=
         mineBlock (latestHash (blockchain w)) (clock env 2)
           (carbon_credit_listing (uuid env) name a p (clock env 1) verified) in
       let chain := blockchain w ++ [block] in
       let db :=
         mkDatabase (<[name := add_balance a user]> (users (database w)))
                    (<[uuid env := mkListing (uuid env) name a p verified (clock env 0)]>
                       (listings (database w))) in
       mkWorld chain db
         (broadcasts w ++
          [blockchain_update chain; marketplace_update (getMarketplace db);
           user_balance_update name (balance user + a)%Q])).
    + apply listing_committed; assumption.
    + unfold list_credit_callback; simpl.
      unfold updateUserBalance; simpl. rewrite Huser; simpl.
      unfold verifyListing; simpl. rewrite lookup_insert_eq; simpl.
      unfold getUser; simpl. rewrite lookup_insert_eq.
      unfold broadcastToClients, set_listings, set_users, set_status, getChain; simpl.
      rewrite insert_insert_eq. rewrite <- !app_assoc. reflexivity.
  - rewrite list_credit_callback_aborted.
    apply (listing_failed w env name a p user); assumption.
Qed.

Lemma api_buy_credit_transition env body w :
  Transition w (POST_buy_credit env body) (snd (api_buy_credit env body w)).
Proof.
  destruct body as [[buyer|] [listingId|]]; try apply nothing_happens.
  unfold api_buy_credit; simpl.
  destruct (falsy_string buyer) eqn:Hb; [apply nothing_happens|].
  destruct (falsy_string listingId) eqn:Hl; [apply nothing_happens|]. simpl.
  apply falsy_string_false in Hb, Hl.
  destruct (listings (database w) !! listingId) as [l|] eqn:Hlisting.
  2:{ unfold purchaseCredit. rewrite Hlisting. simpl.
      rewrite set_database_same. apply nothing_happens. }
  destruct (decide (status l = verified)) as [Hstatus|Hstatus].
  2:{ unfold purchaseCredit. rewrite Hlisting.
      rewrite bool_decide_eq_false_2 by assumption. simpl.
      rewrite set_database_same. apply nothing_happens. }
  destruct (users (database w) !! buyer) as [buyerUser|] eqn:Hbuyer.
  2:{ unfold purchaseCredit. rewrite Hlisting, Hbuyer.
      destruct (negb _); simpl; rewrite set_database_same; apply nothing_happens. }
  rewrite (purchaseCredit_success buyer listingId (database w) l buyerUser) by assumption.
  pose proof (listing_bought w env buyer listingId l buyerUser Hb Hl Hlisting Hstatus Hbuyer)
    as Hstep.
  simpl in Hstep. unfold balanceMessages in Hstep.
  simpl. unfold getChain, broadcastToClients; simpl.
  destruct (getUser buyer _) as [bu|]; simpl.
  - destruct (getUser (seller l) _) as [su|]; simpl;
      rewrite <- ?app_assoc; simpl; rewrite <- ?app_assoc in Hstep; exact Hstep.
  - rewrite <- ?app_assoc in Hstep. rewrite <- ?app_assoc. exact Hstep.
Qed.

(** Every request does one of the five things. *)
Lemma handle_transition r w : Transition w r (snd (handle r w)).
Proof.
  destruct r as [body|env body|env body]; simpl.
  - apply api_register_transition.
  - apply api_list_credit_transition.
  - apply api_buy_credit_transition.
Qed.

Lemma run_from_snoc w rs r :
  run_from w (rs ++ [r]) = snd (handle r (run_from w rs)).
Proof. unfold run_from. rewrite fold_left_app. reflexivity. Qed.

Lemma run_run_from rs : run rs = run_from new_World rs.
Proof. reflexivity. Qed.

End TransitionFacts.

(* ===================================================================== *)
(** * Rejections                                                          *)
(* ===================================================================== *)

Section RejectionFacts.
Context `{Hasher}.

(** X8. A request that is answered with status 400, on any of the three
    routes that can change state, leaves the accounts, the listings, the
    chain and the broadcasts exactly as they were. *)
Theorem rejected_request_changes_nothing r w :
  res_status (fst (handle r w)) = 400%nat -> snd (handle r w) = w.
Proof.
  destruct r as [body|env body|env body]; simpl.
  - destruct body as [[name|] [pass|] [r|]]; try reflexivity.
    unfold api_register; simpl.
    destruct (_ || _); [reflexivity|].
    unfold registerUser.
    destruct (bool_decide (is_Some _)); simpl; [intros _; apply set_database_same|].
    destruct (negb _); simpl; [intros _; apply set_database_same|discriminate].
  - unfold api_list_credit.
    destruct (api_list_credit_with_cases
                (simulateNodeVote (random env)) (simulateNodeCommit (random env)) env body w)
      as [Hsame|(name & a & p & user & -> & Hname & Ha & Hp & Huser & Hrole)];
      [intros _; exact Hsame|].
    rewrite (api_list_credit_accepted _ _ env name a p w user) by assumption.
    discriminate.
  - destruct body as [[buyer|] [listingId|]]; try reflexivity.
    unfold api_buy_credit; simpl.
    destruct (_ || _); [reflexivity|].
    destruct (purchaseCredit buyer listingId (database w)) as [result db] eqn:Hbuy.
    destruct result as [message|sellerName q p].
    + intros _.
      assert (db = database w) as ->; [|apply set_database_same].
      unfold purchaseCredit in Hbuy.
      destruct (listings (database w) !! listingId) as [l|]; [|congruence].
      destruct (negb _); [congruence|].
      destruct (users (database w) !! buyer); [discriminate|congruence].
    + simpl. destruct (getUser buyer _); [|discriminate].
      destruct (getUser sellerName _); discriminate.
Qed.

(** X9. Listing is for sellers: a request in the name of an account that
    does not exist, or whose role is not seller, is answered with 400
    and changes nothing, whatever amount and price it asks. *)
Theorem only_sellers_list env name a p w :
  users (database w) !! name = None \/
  (exists u, users (database w) !! name = Some u /\ role u <> "seller") ->
  let result := api_list_credit env (mkListCreditBody (Some name) a p) w in
  res_status (fst result) = 400%nat /\
  res_success (fst result) = false /\
  snd result = w /\
  (name <> "" -> missing falsy_number a = false -> missing falsy_number p = false ->
   res_message (fst result) = "Invalid user or not a seller").
Proof.
  intros Hcase result. subst result.
  unfold api_list_credit, api_list_credit_with; simpl.
  destruct a as [a|], p as [p|]; simpl;
    try (repeat split; try reflexivity; intros; discriminate).
  destruct (falsy_string name) eqn:Hn; simpl.
  { repeat split. intros Hname. apply falsy_string_false in Hname. congruence. }
  destruct (falsy_number a) eqn:Ha; simpl.
  { repeat split. intros; discriminate. }
  destruct (falsy_number p) eqn:Hp; simpl.
  { repeat split. intros; discriminate. }
  unfold getUser.
  destruct Hcase as [Hnone|(u & Hu & Hrole)].
  - rewrite Hnone. repeat split.
  - rewrite Hu. rewrite bool_decide_eq_false_2 by assumption. simpl. repeat split.
Qed.

End RejectionFacts.

(* ===================================================================== *)
(** * Invariants of the accounts and the listings                         *)
(* ===================================================================== *)

Section InvariantFacts.
Context `{Hasher}.

(** The cases of [handle_transition], with the world after the request
    named [w']. *)
Ltac transition r w w' :=
  let Hstep := fresh "Hstep" in
  pose proof (handle_transition r w) as Hstep;
  set (w' := snd (handle r w)) in *; clearbody w';
  destruct Hstep as
    [ ?
    | ? who pwd rl Hfree Hwho Hpwd Hrl
    | ? who qty prc acct Hwho Hqty Hprc Hacct Hseller
    | ? who qty prc acct Hwho Hqty Hprc Hacct Hseller
    | ? who lid lst acct Hwho Hlid Hlst Hverified Hacct ].

Lemma settle_keeps_account buyer sellerName q us name u :
  us !! name = Some u ->
  exists b, settle buyer sellerName q us !! name
            = Some (mkUser (username u) (password u) (role u) b).
Proof.
  intros Hu. unfold settle.
  destruct (decide (buyer = name)) as [->|Hb];
    destruct (decide (sellerName = name)) as [->|Hs].
  - rewrite !lookup_alter_eq, Hu. simpl. eauto.
  - rewrite lookup_alter_eq, lookup_alter_ne, Hu by assumption. simpl. eauto.
  - rewrite lookup_alter_ne, lookup_alter_eq, Hu by assumption. simpl. eauto.
  - rewrite !lookup_alter_ne, Hu by assumption. destruct u; simpl; eauto.
Qed.

Lemma settle_no_new_account buyer sellerName q us name :
  us !! name = None -> settle buyer sellerName q us !! name = None.
Proof.
  intros Hu. unfold settle. rewrite !lookup_alter_None. exact Hu.
Qed.

Lemma handle_keeps_account r w name u :
  users (database w) !! name = Some u ->
  exists b, users (database (snd (handle r w))) !! name
            = Some (mkUser (username u) (password u) (role u) b).
Proof.
  intros Hu. transition r w w'.
  - destruct u; simpl; eauto.
  - simpl. rewrite lookup_insert_ne by congruence. destruct u; simpl; eauto.
  - simpl. rewrite lookup_insert. case_decide as Hn.
    + subst who. rewrite Hu in Hacct. injection Hacct as <-. simpl. eauto.
    + destruct u; simpl; eauto.
  - simpl. destruct u; simpl; eauto.
  - simpl. apply settle_keeps_account. exact Hu.
Qed.

(** X10. Accounts are for good: over any sequence of requests an account
    keeps its name, password and role, whatever happens to its balance,
    so that a login with its password is answered with 200, and with the
    balance the account then has. *)
Theorem accounts_persist rs w name u :
  name <> "" -> password u <> "" ->
  users (database w) !! name = Some u ->
  exists b,
    users (database (run_from w rs)) !! name
    = Some (mkUser (username u) (password u) (role u) b) /\
    api_login (mkLoginBody (Some name) (Some (password u))) (run_from w rs)
    = user_json 200 (username u) (role u) b.
Proof.
  intros Hname Hpass Hu.
  assert (exists b, users (database (run_from w rs)) !! name
                    = Some (mkUser (username u) (password u) (role u) b)) as [b Hb].
  { induction rs as [|r rs [b IH]] using rev_ind.
    - destruct u; simpl; eauto.
    - rewrite run_from_snoc.
      destruct (handle_keeps_account r (run_from w rs) name _ IH) as [b' Hb'].
      simpl in Hb'. eauto. }
  exists b. split; [exact Hb|].
  destruct (api_login_cases name (password u) (run_from w rs) Hname Hpass)
    as [Hlogin _].
  exact (Hlogin _ Hb eq_refl).
Qed.

Lemma handle_accounts_wellformed r w :
  accounts_wellformed (database w) ->
  accounts_wellformed (database (snd (handle r w))).
Proof.
  intros Hwf. transition r w w'.
  - exact Hwf.
  - intros n u. simpl. rewrite lookup_insert. case_decide.
    + intros [= <-]. subst n. simpl. repeat split; assumption.
    + apply Hwf.
  - intros n u. simpl. rewrite lookup_insert. case_decide.
    + intros [= <-]. subst n. exact (Hwf who acct Hacct).
    + apply Hwf.
  - exact Hwf.
  - intros n u Hu. simpl in Hu.
    destruct (users (database w) !! n) as [u0|] eqn:Hu0.
    + destruct (settle_keeps_account who (seller lst) (amount lst) _ n u0 Hu0) as [b Hb].
      rewrite Hb in Hu. injection Hu as <-. exact (Hwf n u0 Hu0).
    + rewrite (settle_no_new_account _ _ _ _ _ Hu0) in Hu. discriminate.
Qed.

Lemma wellformed_when_reachable w :
  reachable w -> accounts_wellformed (database w).
Proof.
  apply (reachable_ind (fun w => accounts_wellformed (database w))).
  - intros n u. simpl. rewrite lookup_insert. case_decide.
    + intros [= <-]. subst n. simpl. repeat split; try discriminate.
      apply (bool_decide_eq_true_1 ("buyer" ∈ ["buyer"; "seller"])). reflexivity.
    + rewrite lookup_insert. case_decide.
      * intros [= <-]. subst n. simpl. repeat split; try discriminate.
        apply (bool_decide_eq_true_1 ("seller" ∈ ["buyer"; "seller"])). reflexivity.
      * rewrite lookup_empty. discriminate.
  - intros r w'. apply handle_accounts_wellformed.
Qed.

(** X11. In every world the server can reach, every account is stored
    under its own name, which is not empty, has a password that is not
    empty, and has the role buyer or the role seller. *)
Theorem reachable_accounts_wellformed w name u :
  reachable w ->
  users (database w) !! name = Some u ->
  username u = name /\ name <> "" /\ password u <> "" /\
  (role u = "buyer" \/ role u = "seller").
Proof.
  intros Hreach Hu.
  destruct (wellformed_when_reachable w Hreach name u Hu) as (Hn & Hne & Hp & Hrole).
  repeat split; try assumption.
  apply elem_of_cons in Hrole as [Hrole|Hrole]; [left; exact Hrole|].
  apply elem_of_cons in Hrole as [Hrole|Hrole]; [right; exact Hrole|].
  apply elem_of_nil in Hrole. contradiction.
Qed.

Lemma handle_listings_decided r w :
  listings_decided (database w) ->
  listings_decided (database (snd (handle r w))).
Proof.
  intros Hdec. transition r w w'.
  - exact Hdec.
  - intros key l Hl. simpl in Hl. destruct (Hdec key l Hl) as (Hst & u & Hu & Hrole).
    split; [exact Hst|]. exists u. split; [|exact Hrole].
    simpl. rewrite lookup_insert_ne; [exact Hu|]. intros Heq. congruence.
  - intros key l. simpl. rewrite lookup_insert. case_decide.
    + intros [= <-]. simpl. split; [discriminate|].
      rewrite lookup_insert_eq. eexists. split; [reflexivity|]. exact Hseller.
    + intros Hl. destruct (Hdec key l Hl) as (Hst & u & Hu & Hrole).
      split; [exact Hst|]. rewrite lookup_insert. case_decide as Hn.
      * eexists. split; [reflexivity|]. simpl. exact Hseller.
      * eauto.
  - intros key l. simpl. rewrite lookup_insert. case_decide.
    + intros [= <-]. simpl. split; [discriminate|]. eauto.
    + apply Hdec.
  - intros key l'. simpl. rewrite lookup_delete. case_decide; [discriminate|].
    intros Hl'. destruct (Hdec key l' Hl') as (Hst & u & Hu & Hrole).
    split; [exact Hst|].
    destruct (settle_keeps_account who (seller lst) (amount lst) _ _ u Hu) as [b Hb].
    eexists. split; [exact Hb|]. exact Hrole.
Qed.

Lemma decided_when_reachable w :
  reachable w -> listings_decided (database w).
Proof.
  apply (reachable_ind (fun w => listings_decided (database w))).
  - intros key l Hl. simpl in Hl. rewrite lookup_empty in Hl. discriminate.
  - intros r w'. apply handle_listings_decided.
Qed.

(** X12. In every world the server can reach no listing is pending, the
    gate having decided before the request is answered, and the seller
    of every listing is an account with the role seller. *)
Theorem reachable_listings_decided w key l :
  reachable w ->
  listings (database w) !! key = Some l ->
  status l <> pending /\
  exists u, users (database w) !! seller l = Some u /\ role u = "seller".
Proof.
  intros Hreach Hl. exact (decided_when_reachable w Hreach key l Hl).
Qed.

(** X13. The life of a listing, under requests that do not store a new
    listing under its identifier: a failed listing stays as it is for
    ever; a verified listing stays as it is until a request to buy names
    it, which deletes it. *)
Theorem listing_lifecycle r w listingId l :
  listings (database w) !! listingId = Some l ->
  ~ reuses listingId r ->
  let w' := snd (handle r w) in
  (status l = failed -> listings (database w') !! listingId = Some l) /\
  (status l = verified ->
   listings (database w') !! listingId = Some l \/
   (listings (database w') !! listingId = None /\
    exists env buyer,
      r = POST_buy_credit env (mkBuyCreditBody (Some buyer) (Some listingId)))).
Proof.
  intros Hl Hfresh w0. subst w0. transition r w w'.
  - split; intros _; [|left]; exact Hl.
  - split; intros _; [|left]; exact Hl.
  - simpl in Hfresh. simpl. rewrite lookup_insert_ne by exact Hfresh.
    split; intros _; [|left]; exact Hl.
  - simpl in Hfresh. simpl. rewrite lookup_insert_ne by exact Hfresh.
    split; intros _; [|left]; exact Hl.
  - simpl. rewrite lookup_delete. case_decide as Hkey.
    + subst lid. rewrite Hl in Hlst. injection Hlst as <-.
      split; [intros Hfailed; congruence|].
      intros _. right. split; [reflexivity|]. eauto.
    + split; intros _; [|left]; exact Hl.
Qed.

End InvariantFacts.

(* ===================================================================== *)
(** * Balances and the ledger                                             *)
(* ===================================================================== *)

Lemma totalBalance_insert_fresh key u (us : gmap string User) :
  us !! key = None ->
  totalBalance (<[key := u]> us) = (totalBalance us + balance u)%Q.
Proof.
  intros Hfresh. unfold totalBalance.
  apply (map_fold_insert_L (fun _ u acc => (acc + balance u)%Q)); [|assumption].
  intros. apply Qplus_swap.
Qed.

Lemma totalBalance_delete key u (us : gmap string User) :
  us !! key = Some u ->
  totalBalance us = (totalBalance (delete key us) + balance u)%Q.
Proof.
  intros Hu. unfold totalBalance.
  apply (map_fold_delete_L (fun _ u acc => (acc + balance u)%Q)); [|assumption].
  intros. apply Qplus_swap.
Qed.

Lemma totalBalance_insert key u u' (us : gmap string User) :
  us !! key = Some u ->
  (totalBalance (<[key := u']> us) == totalBalance us + (balance u' - balance u))%Q.
Proof.
  intros Hu.
  rewrite <- (insert_delete_eq us key u').
  rewrite (totalBalance_insert_fresh key u' (delete key us)) by apply lookup_delete_eq.
  rewrite (totalBalance_delete key u us Hu). ring.
Qed.

Lemma alter_as_insert {A} (f : A -> A) key x (m : gmap string A) :
  m !! key = Some x -> alter f key m = <[key := f x]> m.
Proof.
  intros Hx. apply map_eq. intros j.
  rewrite lookup_alter, lookup_insert.
  case_decide; [rewrite Hx; reflexivity|reflexivity].
Qed.

Lemma totalBalance_alter key delta u (us : gmap string User) :
  us !! key = Some u ->
  (totalBalance (alter (add_balance delta) key us) == totalBalance us + delta)%Q.
Proof.
  intros Hu. rewrite (alter_as_insert _ key u us Hu).
  rewrite (totalBalance_insert key u _ us Hu). simpl. ring.
Qed.

Lemma totalBalance_settle buyer sellerName q us su bu :
  us !! sellerName = Some su -> us !! buyer = Some bu ->
  (totalBalance (settle buyer sellerName q us) == totalBalance us)%Q.
Proof.
  intros Hs Hb. unfold settle.
  assert (is_Some (alter (add_balance (- q)) sellerName us !! buyer)) as [bu' Hbu'].
  { apply lookup_alter_is_Some. eauto. }
  rewrite (totalBalance_alter buyer q bu' _ Hbu').
  rewrite (totalBalance_alter sellerName (- q) su us Hs). ring.
Qed.

Lemma totalIssued_snoc chain b :
  totalIssued (chain ++ [b]) = (totalIssued chain + issuedBy b)%Q.
Proof. unfold totalIssued. rewrite fold_left_app. reflexivity. Qed.

(** Whole numbers: sums and differences stay whole, and within bounds. *)
Lemma whole_plus a b : whole a -> whole b -> whole (a + b).
Proof. unfold whole. destruct a, b; simpl. intros -> ->. reflexivity. Qed.

Lemma whole_opp a : whole a -> whole (- a).
Proof. unfold whole. destruct a; simpl. auto. Qed.

Lemma asked_nonneg r : asks_positive r -> (0 <= asked r)%Q.
Proof.
  destruct r as [body|env body|env body]; simpl; try (intros; lra).
  destruct (list_amount body); intros; lra.
Qed.

Lemma totalAsked_snoc rs r : totalAsked (rs ++ [r]) = (totalAsked rs + asked r)%Q.
Proof. unfold totalAsked. rewrite fold_left_app. reflexivity. Qed.

Lemma asked_more rs :
  Forall asks_positive rs ->
  forall x, (x <= fold_left (fun acc r => acc + asked r) rs x)%Q.
Proof.
  induction 1 as [|r rs Hr _ IH]; intros x; simpl.
  - lra.
  - pose proof (asked_nonneg r Hr). pose proof (IH (x + asked r)%Q). lra.
Qed.

Lemma totalAsked_app_le before after :
  Forall asks_positive after ->
  (totalAsked before <= totalAsked (before ++ after))%Q.
Proof.
  intros Hafter. unfold totalAsked. rewrite fold_left_app.
  apply asked_more. exact Hafter.
Qed.

Lemma totalBalance_nonneg (us : gmap string User) :
  (forall name u, us !! name = Some u -> (0 <= balance u)%Q) ->
  (0 <= totalBalance us)%Q.
Proof.
  unfold totalBalance.
  apply (map_fold_weak_ind
           (fun r m => (forall name u, m !! name = Some u -> (0 <= balance u)%Q) ->
                       (0 <= r)%Q)).
  - intros _. lra.
  - intros key u m r Hfresh IH Hall.
    assert (0 <= r)%Q as Hr.
    { apply IH. intros n u' Hu'. apply (Hall n u').
      rewrite lookup_insert_ne; [assumption|]. intros <-. congruence. }
    pose proof (Hall key u (lookup_insert_eq m key u)). lra.
Qed.

Lemma balance_le_totalBalance (us : gmap string User) name u :
  (forall name u, us !! name = Some u -> (0 <= balance u)%Q) ->
  us !! name = Some u ->
  (balance u <= totalBalance us)%Q.
Proof.
  intros Hall Hu.
  rewrite (totalBalance_delete name u us Hu).
  assert (0 <= totalBalance (delete name us))%Q.
  { apply totalBalance_nonneg. intros n u'. rewrite lookup_delete.
    case_decide; [discriminate|]. apply Hall. }
  lra.
Qed.

Lemma amount_le_listed key l ls :
  amounts_positive ls ->
  ls !! key = Some l -> status l = verified ->
  (amount l <= listed (seller l) ls)%Q.
Proof.
  intros Hpos Hl Hstatus.
  rewrite (listed_delete (seller l) key l ls Hl).
  pose proof (listed_nonneg (seller l) _ (amounts_positive_delete key ls Hpos)).
  unfold count_listing. rewrite bool_decide_eq_true_2 by (split; [reflexivity|assumption]).
  lra.
Qed.

Section LedgerBalanceFacts.
Context `{Hasher}.

Lemma handle_backed r w :
  listings_decided (database w) ->
  (totalBalance (users (database w)) == totalIssued (blockchain w))%Q ->
  (totalBalance (users (database (snd (handle r w))))
   == totalIssued (blockchain (snd (handle r w))))%Q.
Proof.
  intros Hdec Hbacked.
  pose proof (handle_transition r w) as Hstep.
  set (w' := snd (handle r w)) in *. clearbody w'.
  destruct Hstep as
    [ ?
    | ? who pwd rl Hfree Hwho Hpwd Hrl
    | ? who qty prc acct Hwho Hqty Hprc Hacct Hseller
    | ? who qty prc acct Hwho Hqty Hprc Hacct Hseller
    | ? who lid lst acct Hwho Hlid Hlst Hverified Hacct ].
  - exact Hbacked.
  - cbn [blockchain database users set_database set_users].
    rewrite (totalBalance_insert_fresh who _ _ Hfree). simpl balance.
    rewrite <- Hbacked. ring.
  - subst db chain. cbn [blockchain database users]. rewrite totalIssued_snoc.
    rewrite (totalBalance_insert who acct _ _ Hacct). simpl balance.
    rewrite Hbacked. unfold issuedBy; simpl. ring.
  - exact Hbacked.
  - subst db chain. cbn [blockchain database users]. rewrite totalIssued_snoc.
    destruct (Hdec lid lst Hlst) as (_ & su & Hsu & _).
    rewrite (totalBalance_settle who (seller lst) (amount lst) _ su acct Hsu Hacct).
    rewrite Hbacked. unfold issuedBy; simpl. ring.
Qed.

Lemma all_whole_new : all_whole new_Database.
Proof.
  split.
  - intros name u Hu. simpl in Hu.
    rewrite lookup_insert in Hu. case_decide.
    + injection Hu as <-. reflexivity.
    + rewrite lookup_insert in Hu. case_decide.
      * injection Hu as <-. reflexivity.
      * rewrite lookup_empty in Hu. discriminate.
  - intros key l Hl. simpl in Hl. rewrite lookup_empty in Hl. discriminate.
Qed.

Lemma handle_all_whole r w :
  whole (asked r) ->
  all_whole (database w) -> all_whole (database (snd (handle r w))).
Proof.
  intros Hasked [Hbalances Hamounts].
  pose proof (handle_transition r w) as Hstep.
  set (w' := snd (handle r w)) in *. clearbody w'.
  destruct Hstep as
    [ ?
    | ? who pwd rl Hfree Hwho Hpwd Hrl
    | ? who qty prc acct Hwho Hqty Hprc Hacct Hseller
    | ? who qty prc acct Hwho Hqty Hprc Hacct Hseller
    | ? who lid lst acct Hwho Hlid Hlst Hverified Hacct ].
  - split; assumption.
  - split; cbn [database users listings set_database set_users]; [|assumption].
    intros n u. rewrite lookup_insert. case_decide.
    + intros [= <-]. reflexivity.
    + apply Hbalances.
  - subst db chain. simpl in Hasked. split; cbn [database users listings].
    + intros n u. rewrite lookup_insert. case_decide.
      * intros [= <-]. simpl. apply whole_plus; [|assumption].
        exact (Hbalances who acct Hacct).
      * apply Hbalances.
    + intros k l. rewrite lookup_insert. case_decide.
      * intros [= <-]. assumption.
      * apply Hamounts.
  - simpl in Hasked. split; cbn [database users listings]; [assumption|].
    intros k l. rewrite lookup_insert. case_decide.
    + intros [= <-]. assumption.
    + apply Hamounts.
  - subst db chain. pose proof (Hamounts lid lst Hlst) as Hq.
    split; cbn [database users listings].
    + intros n u. unfold settle.
      destruct (decide (seller lst = n)) as [Hs|Hs];
        destruct (decide (who = n)) as [Hb|Hb].
      * subst n. rewrite Hb. rewrite !lookup_alter_eq.
        destruct (users (database w) !! seller lst) as [u0|] eqn:Hu0; [|discriminate].
        intros [= <-]. simpl.
        apply whole_plus; [|assumption].
        apply whole_plus; [exact (Hbalances _ u0 Hu0)|apply whole_opp; assumption].
      * subst n. rewrite lookup_alter_ne by assumption. rewrite lookup_alter_eq.
        destruct (users (database w) !! seller lst) as [u0|] eqn:Hu0; [|discriminate].
        intros [= <-]. simpl.
        apply whole_plus; [exact (Hbalances _ u0 Hu0)|apply whole_opp; assumption].
      * subst n. rewrite lookup_alter_eq. rewrite lookup_alter_ne by assumption.
        rewrite Hacct. intros [= <-]. simpl.
        apply whole_plus; [exact (Hbalances _ acct Hacct)|assumption].
      * rewrite !lookup_alter_ne by assumption. apply Hbalances.
    + intros k l. rewrite lookup_delete. case_decide; [discriminate|]. apply Hamounts.
Qed.

Lemma handle_issues r w :
  asks_positive r ->
  (totalIssued (blockchain (snd (handle r w)))
   <= totalIssued (blockchain w) + asked r)%Q.
Proof.
  intros Hasks. pose proof (asked_nonneg r Hasks) as Hnonneg.
  pose proof (handle_transition r w) as Hstep.
  set (w' := snd (handle r w)) in *. clearbody w'.
  destruct Hstep as
    [ ?
    | ? who pwd rl Hfree Hwho Hpwd Hrl
    | ? who qty prc acct Hwho Hqty Hprc Hacct Hseller
    | ? who qty prc acct Hwho Hqty Hprc Hacct Hseller
    | ? who lid lst acct Hwho Hlid Hlst Hverified Hacct ].
  - lra.
  - cbn [blockchain set_database]. lra.
  - subst db chain. cbn [blockchain]. rewrite totalIssued_snoc.
    unfold issuedBy; simpl. lra.
  - cbn [blockchain]. lra.
  - subst db chain. cbn [blockchain]. rewrite totalIssued_snoc.
    unfold issuedBy; simpl. lra.
Qed.

(** What a run of requests for positive whole amounts has reached: whole
    balances and amounts, every account holding at least what it has on
    offer, balances that add up to what the chain records as issued, and
    no more issued than asked for. *)
Lemma run_exact rs :
  Forall asks_whole rs ->
  all_whole (database (run rs)) /\
  covered (database (run rs)) /\
  listings_decided (database (run rs)) /\
  (totalBalance (users (database (run rs))) == totalIssued (blockchain (run rs)))%Q /\
  (totalIssued (blockchain (run rs)) <= totalAsked rs)%Q.
Proof.
  induction rs as [|r rs IH] using rev_ind; intros Hasks.
  - split; [exact all_whole_new|]. split; [exact covered_new|].
    split; [|split; vm_compute; [reflexivity|discriminate]].
    intros key l Hl. simpl in Hl. rewrite lookup_empty in Hl. discriminate.
  - apply Forall_app in Hasks as [Hrs Hr]. apply Forall_inv in Hr.
    destruct Hr as [Hwhole Hpos].
    destruct (IH Hrs) as (Hall & Hcov & Hdec & Hbacked & Hissued).
    rewrite run_snoc, totalAsked_snoc.
    split; [apply handle_all_whole; assumption|].
    split; [apply handle_covered; assumption|].
    split; [apply handle_listings_decided; assumption|].
    split; [apply handle_backed; assumption|].
    pose proof (handle_issues r (run rs) Hpos). lra.
Qed.

(** X14. Along a run of requests that ask to list positive whole
    amounts adding up to at most [2^53], where every addition the server
    performs is exact, the balances of all accounts add up to the
    amounts of the listing records in the chain, and these to at most
    [2^53]: a committed listing raises both sums by its amount, a
    purchase moves credits and raises neither, and nothing else changes
    either.  The run is [before]; [after] is what may follow it. *)
Theorem whole_balances_backed_by_ledger before after :
  Forall asks_whole (before ++ after) ->
  (totalAsked (before ++ after) <= maxExact)%Q ->
  (totalBalance (users (database (run before)))
   == totalIssued (blockchain (run before)))%Q /\
  (totalIssued (blockchain (run before)) <= maxExact)%Q.
Proof.
  intros Hasks Hbound.
  apply Forall_app in Hasks as [Hbefore Hafter].
  destruct (run_exact before Hbefore) as (_ & _ & _ & Hbacked & Hissued).
  split; [exact Hbacked|].
  assert (Forall asks_positive after) as Hpos.
  { eapply Forall_impl; [exact Hafter|]. intros r [_ Hr]. exact Hr. }
  pose proof (totalAsked_app_le before after Hpos). lra.
Qed.

(** X28. Along a run of requests that ask to list positive whole amounts
    adding up to at most [2^53], every balance is a whole number between
    0 and [2^53], and every verified listing offers a positive whole
    amount that its seller holds: the debit of a purchase leaves a whole
    number that is not negative, and no addition the server performs
    leaves the range in which doubles add without rounding.  The run is
    [before]; [after] is what may follow it. *)
Theorem whole_amounts_keep_balances_nonneg before after name u :
  Forall asks_whole (before ++ after) ->
  (totalAsked (before ++ after) <= maxExact)%Q ->
  users (database (run before)) !! name = Some u ->
  whole (balance u) /\ (0 <= balance u)%Q /\ (balance u <= maxExact)%Q /\
  (forall key l,
     listings (database (run before)) !! key = Some l ->
     seller l = name -> status l = verified ->
     whole (amount l) /\ (0 < amount l)%Q /\ (amount l <= balance u)%Q).
Proof.
  intros Hasks Hbound Hu.
  apply Forall_app in Hasks as [Hbefore Hafter].
  destruct (run_exact before Hbefore)
    as ([Hwhole Hamounts] & [Hpositive _ Hcovered] & _ & Hbacked & Hissued).
  assert (Forall asks_positive after) as Hpos.
  { eapply Forall_impl; [exact Hafter|]. intros r [_ Hr]. exact Hr. }
  pose proof (totalAsked_app_le before after Hpos) as Hmore.
  assert (forall n v, users (database (run before)) !! n = Some v -> (0 <= balance v)%Q)
    as Hnonneg.
  { intros n v Hv. pose proof (Hcovered n v Hv).
    pose proof (listed_nonneg n _ Hpositive). lra. }
  split; [exact (Hwhole name u Hu)|].
  split; [exact (Hnonneg name u Hu)|].
  split.
  - pose proof (balance_le_totalBalance _ name u Hnonneg Hu). lra.
  - intros key l Hl Hseller Hstatus.
    split; [exact (Hamounts key l Hl)|].
    split; [exact (Hpositive key l Hl)|].
    pose proof (amount_le_listed key l _ Hpositive Hl Hstatus) as Hle.
    rewrite Hseller in Hle. pose proof (Hcovered name u Hu). lra.
Qed.

End LedgerBalanceFacts.

(* ===================================================================== *)
(** * Broadcasts and the page                                             *)
(* ===================================================================== *)

Section BroadcastFacts.
Context `{Hasher}.

Lemma balanceMessages_tell buyer sellerName chain db messages :
  Forall (tells_balance (mkWorld chain db messages))
         (balanceMessages buyer sellerName db).
Proof.
  unfold balanceMessages, tells_balance, balanceOf; simpl.
  destruct (getUser buyer db) as [bu|] eqn:Hb; [|constructor].
  constructor; [rewrite Hb; reflexivity|].
  destruct (getUser sellerName db) as [su|] eqn:Hs; [|constructor].
  constructor; [rewrite Hs; reflexivity|constructor].
Qed.

(** A request broadcasts nothing, or the new chain, the new marketplace
    and balances. *)
Lemma handle_broadcasts r w :
  let w' := snd (handle r w) in
  (blockchain w' = blockchain w /\ broadcasts w' = broadcasts w) \/
  (exists block tail,
     blockchain w' = blockchain w ++ [block] /\
     broadcasts w'
     = broadcasts w ++
       blockchain_update (blockchain w') :: marketplace_update (api_marketplace w') :: tail /\
     Forall (tells_balance w') tail).
Proof.
  intros w'. subst w'.
  pose proof (handle_transition r w) as Hstep.
  set (w' := snd (handle r w)) in *. clearbody w'.
  destruct Hstep as
    [ ?
    | ? who pwd rl Hfree Hwho Hpwd Hrl
    | ? who qty prc acct Hwho Hqty Hprc Hacct Hseller
    | ? who qty prc acct Hwho Hqty Hprc Hacct Hseller
    | ? who lid lst acct Hwho Hlid Hlst Hverified Hacct ].
  - left. split; reflexivity.
  - left. split; reflexivity.
  - right. exists block, [user_balance_update who (balance acct + qty)%Q].
    split; [reflexivity|]. split; [reflexivity|].
    constructor; [|constructor].
    unfold tells_balance, balanceOf, getUser; simpl.
    rewrite lookup_insert_eq. reflexivity.
  - left. split; reflexivity.
  - right. exists block, (balanceMessages who (seller lst) db).
    split; [reflexivity|]. split; [reflexivity|].
    apply balanceMessages_tell.
Qed.

(** X15. What is broadcast mirrors the state.  A request either leaves
    the chain alone and broadcasts nothing (a rejection, a registration
    and a listing that failed verification are not announced), or appends
    one block and broadcasts, in this order, the chain as it now is, the
    marketplace as it now is, and balances, each of which is the balance
    the named account now has. *)
Theorem broadcasts_mirror_state r w :
  let w' := snd (handle r w) in
  (blockchain w' = blockchain w /\ broadcasts w' = broadcasts w) \/
  (exists block tail,
     blockchain w' = blockchain w ++ [block] /\
     broadcasts w'
     = broadcasts w ++
       blockchain_update (blockchain w') :: marketplace_update (api_marketplace w') :: tail /\
     Forall (tells_balance w') tail).
Proof. exact (handle_broadcasts r w). Qed.

Lemma newBroadcasts_app w w' news :
  broadcasts w' = broadcasts w ++ news -> newBroadcasts w w' = news.
Proof.
  intros Heq. unfold newBroadcasts. rewrite Heq. apply drop_app_length.
Qed.

(** Balance messages leave the displays of chain and marketplace alone,
    and leave in the session either the balance it had or a balance
    that was told. *)
Lemma receive_balances w' tail page :
  Forall (tells_balance w') tail ->
  shownChain (receive tail page) = shownChain page /\
  shownListings (receive tail page) = shownListings page /\
  (currentUser page = None -> currentUser (receive tail page) = None) /\
  (forall s, currentUser page = Some s ->
     exists b,
       currentUser (receive tail page)
       = Some (mkSessionUser (session_username s) (session_role s) b) /\
       (b = session_balance s \/ balanceOf (session_username s) w' = Some b)).
Proof.
  intros Htail. revert page.
  induction Htail as [|m tail Hm _ IH]; intros page.
  - simpl. repeat split; try reflexivity; try (intros; assumption).
    intros s Hs. exists (session_balance s). split; [|left; reflexivity].
    rewrite Hs. destruct s; reflexivity.
  - destruct m as [chain|market|name b]; simpl in Hm; try contradiction.
    change (receive (user_balance_update name b :: tail) page)
      with (receive tail (onmessage (user_balance_update name b) page)).
    destruct (IH (onmessage (user_balance_update name b) page))
      as (Hchain & Hmarket & Hnone & Hsome).
    unfold onmessage in *.
    destruct (currentUser page) as [s|] eqn:Hs.
    + destruct (bool_decide (session_username s = name)) eqn:Hname.
      * apply bool_decide_eq_true in Hname. simpl in *.
        split; [exact Hchain|]. split; [exact Hmarket|]. split; [discriminate|].
        intros s0 [= <-].
        destruct (Hsome _ eq_refl) as (b' & Hb' & Hcase). simpl in *.
        exists b'. split; [exact Hb'|]. right.
        destruct Hcase as [->|Hcase]; [rewrite Hname; exact Hm|exact Hcase].
      * split; [exact Hchain|]. split; [exact Hmarket|]. split; [discriminate|].
        intros s0 [= <-]. exact (Hsome s Hs).
    + split; [exact Hchain|]. split; [exact Hmarket|].
      split; [intros _; exact (Hnone Hs)|discriminate].
Qed.


End BroadcastFacts.

Section ActorFacts.
Context `{Hasher}.





End ActorFacts.

(* ===================================================================== *)
(** * The WebSocket clients                                               *)
(* ===================================================================== *)

Lemma broadcastToSockets_lookup m (clients : Clients) key :
  broadcastToSockets m clients !! key
  = (fun client =>
       if bool_decide (readyState client = OPEN) then send m client else client)
    <$> clients !! key.
Proof. unfold broadcastToSockets. apply lookup_fmap. Qed.

Lemma deliver_lookup ms (clients : Clients) key :
  deliver ms clients !! key
  = (fun client =>
       if bool_decide (readyState client = OPEN)
       then mkSocket OPEN (sent client ++ ms) else client)
    <$> clients !! key.
Proof.
  revert clients. induction ms as [|m ms IH]; intros clients.
  - simpl. destruct (clients !! key) as [[state msgs]|]; simpl; [|reflexivity].
    rewrite app_nil_r. case_bool_decide as Hopen; [|reflexivity].
    simpl in Hopen. rewrite Hopen. reflexivity.
  - change (deliver (m :: ms) clients) with (deliver ms (broadcastToSockets m clients)).
    rewrite IH, broadcastToSockets_lookup.
    destruct (clients !! key) as [[state msgs]|]; simpl; [|reflexivity].
    destruct (decide (state = OPEN)) as [->|Hclosed].
    + simpl. rewrite <- app_assoc. reflexivity.
    + rewrite (bool_decide_eq_false_2 (state = OPEN)) by assumption. simpl.
      rewrite (bool_decide_eq_false_2 (state = OPEN)) by assumption. reflexivity.
Qed.

(** X18. Broadcasting reaches the open sockets and nothing else: after
    any sequence of broadcasts a socket whose state is OPEN was sent
    those messages, in that order, after what it was sent before; a
    socket in another state was sent nothing; no socket joined or left
    the set of clients, so the count of the health route is the same. *)
Theorem deliver_reaches_open ms (clients : Clients) w :
  (forall key ws, clients !! key = Some ws ->
     deliver ms clients !! key
     = Some (if bool_decide (readyState ws = OPEN)
             then mkSocket OPEN (sent ws ++ ms) else ws)) /\
  (forall key, clients !! key = None -> deliver ms clients !! key = None) /\
  connectedClients (api_health w (deliver ms clients))
  = connectedClients (api_health w clients).
Proof.
  split; [|split].
  - intros key ws Hws. rewrite deliver_lookup, Hws. reflexivity.
  - intros key Hnone. rewrite deliver_lookup, Hnone. reflexivity.
  - simpl. revert clients. induction ms as [|m ms IH]; intros clients; [reflexivity|].
    change (deliver (m :: ms) clients) with (deliver ms (broadcastToSockets m clients)).
    rewrite IH. unfold broadcastToSockets. apply map_size_fmap.
Qed.

Section ClientFacts.
Context `{Hasher}.

Lemma receive_app ms ms' page :
  receive (ms ++ ms') page = receive ms' (receive ms page).
Proof. unfold receive. apply fold_left_app. Qed.

(** The broadcasts of a request, as news to a page that displays the
    chain of the world before. *)
Lemma handle_news r w :
  exists news,
    broadcasts (snd (handle r w)) = broadcasts w ++ news /\
    forall page, shownChain page = blockchain w ->
      shownChain (receive news page) = blockchain (snd (handle r w)).
Proof.
  pose proof (handle_transition r w) as Hstep.
  set (w' := snd (handle r w)) in *. clearbody w'.
  destruct Hstep as
    [ ?
    | ? who pwd rl Hfree Hwho Hpwd Hrl
    | ? who qty prc acct Hwho Hqty Hprc Hacct Hseller
    | ? who qty prc acct Hwho Hqty Hprc Hacct Hseller
    | ? who lid lst acct Hwho Hlid Hlst Hverified Hacct ].
  - exists []. rewrite app_nil_r. split; [reflexivity|]. intros page Hp. exact Hp.
  - exists []. rewrite app_nil_r. split; [reflexivity|]. intros page Hp. exact Hp.
  - eexists. split; [reflexivity|]. intros page _.
    simpl. unfold onmessage; simpl.
    destruct (currentUser page) as [s|]; [|reflexivity].
    destruct (bool_decide _); reflexivity.
  - exists []. rewrite app_nil_r. split; [reflexivity|]. intros page Hp. exact Hp.
  - eexists. split; [reflexivity|]. intros page _.
    change (receive ([blockchain_update chain; marketplace_update (getMarketplace db)]
                     ++ balanceMessages who (seller lst) db) page)
      with (receive (balanceMessages who (seller lst) db)
              (mkPage (currentUser page) chain (getMarketplace db) (shownBalance page))).
    destruct (receive_balances (mkWorld chain db []) _
                (mkPage (currentUser page) chain (getMarketplace db) (shownBalance page))
                (balanceMessages_tell who (seller lst) chain db []))
      as (Hchain & _).
    exact Hchain.
Qed.

Lemma run_from_news w rs :
  exists news,
    broadcasts (run_from w rs) = broadcasts w ++ news /\
    forall page, shownChain page = blockchain w ->
      shownChain (receive news page) = blockchain (run_from w rs).
Proof.
  induction rs as [|r rs (news & Hnews & Hshown)] using rev_ind.
  - exists []. rewrite app_nil_r. split; [reflexivity|]. intros page Hp. exact Hp.
  - rewrite run_from_snoc.
    destruct (handle_news r (run_from w rs)) as (step & Hstep & Hfollows).
    exists (news ++ step). split.
    + rewrite Hstep, Hnews, app_assoc. reflexivity.
    + intros page Hp. rewrite receive_app. apply Hfollows. apply Hshown. exact Hp.
Qed.

(** X19. A client that connects, and whose socket stays open, displays
    the chain of the server from then on: its socket is first sent the
    chain and the marketplace of the moment, then every broadcast of the
    requests that follow, and a page that handles these messages in
    order ends on the chain the server then has. *)
Theorem connected_client_shows_chain key w rs (clients : Clients) page :
  let w' := run_from w rs in
  let connected := on_connection key (mkSocket OPEN []) w clients in
  exists ms,
    deliver (newBroadcasts w w') connected !! key = Some (mkSocket OPEN ms) /\
    take 2 ms
    = [blockchain_update (blockchain w); marketplace_update (api_marketplace w)] /\
    shownChain (receive ms page) = blockchain w'.
Proof.
  intros w' connected. subst w' connected.
  destruct (run_from_news w rs) as (news & Hnews & Hshown).
  rewrite (newBroadcasts_app w _ news Hnews).
  exists ([blockchain_update (blockchain w); marketplace_update (api_marketplace w)]
          ++ news).
  split; [|split].
  - rewrite deliver_lookup. unfold on_connection, Clients in *. cbv zeta.
    rewrite (lookup_insert_eq (M := gmap nat)). reflexivity.
  - reflexivity.
  - rewrite receive_app. apply Hshown. reflexivity.
Qed.

End ClientFacts.

(* ===================================================================== *)
(** * The two revisions of the server                                     *)
(* ===================================================================== *)

Section RevisionFacts.
Context `{Hasher}.



End RevisionFacts.

(* ===================================================================== *)
(** * The page                                                            *)
(* ===================================================================== *)

Lemma Qltb_false a b : Qltb a b = false -> (b <= a)%Q.
Proof.
  unfold Qltb. intros Hlt. apply negb_false_iff in Hlt.
  apply Qle_bool_iff. exact Hlt.
Qed.

(** A number that is at least a positive number is not falsy. *)
Lemma at_least_is_truthy a b : (0 < b)%Q -> (b <= a)%Q -> falsy_number a = false.
Proof.
  intros Hb Ha. unfold falsy_number.
  destruct (Qeq_bool a 0) eqn:Hzero; [|reflexivity].
  apply Qeq_bool_iff in Hzero. lra.
Qed.

(** What the page has checked when it sends a request to list. *)
Lemma listCredits_sends session amount price body :
  listCredits session amount price = fetch body ->
  exists s a p,
    session = Some s /\ session_role s = "seller" /\
    amount = Some a /\ price = Some p /\
    (1 <= a)%Q /\ (1 # 100 <= p)%Q /\
    body = mkListCreditBody (Some (session_username s)) (Some a) (Some p).
Proof.
  unfold listCredits.
  destruct session as [s|]; [|discriminate].
  destruct (bool_decide (session_role s = "seller")) eqn:Hrole; simpl; [|discriminate].
  apply bool_decide_eq_true in Hrole.
  destruct amount as [a|]; simpl; [|discriminate].
  destruct (falsy_number a); simpl; [discriminate|].
  destruct (Qltb a 1) eqn:Ha; [discriminate|].
  destruct price as [p|]; simpl; [|discriminate].
  destruct (falsy_number p); simpl; [discriminate|].
  destruct (Qltb p (1 # 100)) eqn:Hp; [discriminate|].
  intros [= <-]. exists s, a, p.
  repeat split; try assumption; apply Qltb_false; assumption.
Qed.

Section PageFacts.
Context `{Hasher}.

(** X21. The page sends a request to list only for a session with the
    role seller and only with an amount of at least 1 and a price of at
    least 0.01, and sends exactly the name of the session and these two
    numbers.  The server accepts what the page sends for the account of
    the session: the answer is a success that carries the identifier of
    the listing, and the listing stored under it, verified or failed,
    has that seller, that amount of at least 1 and that price of at
    least 0.01. *)
Theorem page_listing_is_accepted :
  (forall session typedAmount typedPrice body,
     listCredits session typedAmount typedPrice = fetch body ->
     exists s a p,
       session = Some s /\ session_role s = "seller" /\
       typedAmount = Some a /\ typedPrice = Some p /\
       (1 <= a)%Q /\ (1 # 100 <= p)%Q /\
       body = mkListCreditBody (Some (session_username s)) (Some a) (Some p)) /\
  (forall env w s typedAmount typedPrice body user,
     listCredits (Some s) typedAmount typedPrice = fetch body ->
     session_username s <> "" ->
     users (database w) !! session_username s = Some user ->
     role user = session_role s ->
     let result := api_list_credit env body w in
     res_status (fst result) = 200%nat /\
     res_success (fst result) = true /\
     res_listingId (fst result) = Some (uuid env) /\
     exists l,
       listings (database (snd result)) !! uuid env = Some l /\
       seller l = session_username s /\
       typedAmount = Some (amount l) /\ typedPrice = Some (price l) /\
       (1 <= amount l)%Q /\ (1 # 100 <= price l)%Q /\
       status l <> pending).
Proof.
  split; [exact listCredits_sends|].
  intros env w s typedAmount typedPrice body user Hsent Hname Huser Hrole result.
  destruct (listCredits_sends _ _ _ _ Hsent)
    as (s' & a & p & [= <-] & Hseller & -> & -> & Ha & Hp & ->).
  subst result. unfold api_list_credit.
  rewrite (api_list_credit_accepted _ _ env (session_username s) a p w user);
    [|assumption|apply (at_least_is_truthy a 1); [lra|assumption]
     |apply (at_least_is_truthy p (1 # 100)); [lra|assumption]
     |assumption|congruence].
  cbn [fst snd res_status res_success res_listingId].
  split; [reflexivity|]. split; [reflexivity|]. split; [reflexivity|].
  destruct (decision _ _ env (session_username s) a p) as [tx|reason].
  - destruct (list_credit_callback_committed env (session_username s) a p w user tx Huser)
      as (block & messages & -> & _).
    eexists. cbn [database listings]. rewrite lookup_insert_eq.
    split; [reflexivity|]. simpl. repeat split; try assumption. discriminate.
  - rewrite list_credit_callback_aborted.
    eexists. cbn [database listings]. rewrite lookup_insert_eq.
    split; [reflexivity|]. simpl. repeat split; try assumption. discriminate.
Qed.


End PageFacts.

(* ===================================================================== *)
(** * Reconnection                                                        *)
(* ===================================================================== *)

Lemma onclose_delay attempts d next :
  onclose attempts = (Some d, next) ->
  (d = 1000 * 2 ^ Z.of_nat attempts /\ 1000 <= d <= 16000)%Z /\
  (attempts < 5)%nat /\ next = S attempts.
Proof.
  unfold onclose, maxReconnectAttempts.
  destruct attempts as [|[|[|[|[|n]]]]]; simpl; intros [= <- <-];
    repeat split; lia.
Qed.

Lemma reconnections_exhausted n :
  reconnections (repeat closed n) 5 = ([], 5%nat).
Proof.
  induction n as [|n IH]; [reflexivity|].
  simpl repeat. simpl reconnections.
  change (onclose 5) with (@None Z, 5%nat). cbv iota beta. rewrite IH. reflexivity.
Qed.

(** X23. The page backs off when its socket closes.  Every delay it
    schedules is [1000 * 2^i] milliseconds for the number [i] of
    attempts made, which is between one and sixteen seconds, so the cap
    of thirty seconds never applies; the counter never passes five when
    it starts at five or below; and sockets that only close get the
    delays of one, two, four, eight and sixteen seconds and then no
    further attempt. *)
Theorem reconnection_backoff :
  (forall events attempts,
     Forall (fun d => 1000 <= d <= 16000)%Z (fst (reconnections events attempts)) /\
     ((attempts <= 5)%nat -> (snd (reconnections events attempts) <= 5)%nat)) /\
  (forall n,
     reconnections (repeat closed n) 0
     = (take n [1000; 2000; 4000; 8000; 16000]%Z, Nat.min n 5)).
Proof.
  split.
  - intros events. induction events as [|[|] rest IH]; intros attempts.
    + simpl. split; [constructor|auto].
    + simpl. destruct (IH (onopen attempts)) as [Hdelays Hfinal].
      split; [exact Hdelays|]. intros _. apply Hfinal. unfold onopen. lia.
    + simpl. destruct (onclose attempts) as [[d|] next] eqn:Hclose.
      * destruct (onclose_delay attempts d next Hclose) as ((_ & Hd) & Hlt & ->).
        destruct (IH (S attempts)) as [Hdelays Hfinal].
        destruct (reconnections rest (S attempts)) as [delays final]. simpl in *.
        split; [constructor; assumption|]. intros _. apply Hfinal. lia.
      * assert (next = attempts) as ->.
        { unfold onclose in Hclose. destruct (_ <? _)%nat; congruence. }
        destruct (IH attempts) as [Hdelays Hfinal].
        destruct (reconnections rest attempts) as [delays final]. simpl in *.
        split; assumption.
  - intros n.
    destruct n as [|[|[|[|[|n]]]]]; try reflexivity.
    change (repeat closed (S (S (S (S (S n))))))
      with (closed :: closed :: closed :: closed :: closed :: repeat closed n).
    cbn [reconnections]. unfold onclose, maxReconnectAttempts. cbn [Nat.ltb Nat.leb].
    cbv iota beta.
    pose proof (reconnections_exhausted n) as Hrest.
    rewrite Hrest. f_equal; [|lia].
    cbn [take]. rewrite take_nil. reflexivity.
Qed.

(* ===================================================================== *)
(** * What the chain records                                              *)
(* ===================================================================== *)

Section RecordFacts.
Context `{Hasher}.

Lemma handle_chain r w :
  blockchain (snd (handle r w)) = blockchain w \/
  exists block,
    blockchain (snd (handle r w)) = blockchain w ++ [block] /\
    records_success block.
Proof.
  pose proof (handle_transition r w) as Hstep.
  set (w' := snd (handle r w)) in *. clearbody w'.
  destruct Hstep as
    [ ?
    | ? who pwd rl Hfree Hwho Hpwd Hrl
    | ? who qty prc acct Hwho Hqty Hprc Hacct Hseller
    | ? who qty prc acct Hwho Hqty Hprc Hacct Hseller
    | ? who lid lst acct Hwho Hlid Hlst Hverified Hacct ];
    try (left; reflexivity).
  - right. exists block. split; reflexivity.
  - right. exists block. split; [reflexivity|exact I].
Qed.

(** X24. The chain only grows, and records successes only.  A request
    leaves the chain as it is or appends one block to it; and in every
    world the server can reach the chain is the genesis block followed
    by blocks that each carry a listing record with the status verified
    or a purchase record, so that no rejected request and no listing that
    failed verification is ever recorded. *)
Theorem chain_records_successes :
  (forall r w,
     blockchain (snd (handle r w)) = blockchain w \/
     exists block,
       blockchain (snd (handle r w)) = blockchain w ++ [block] /\
       records_success block) /\
  (forall w, reachable w ->
     exists rest,
       blockchain w = createGenesisBlock :: rest /\ Forall records_success rest).
Proof.
  split; [exact handle_chain|].
  apply (reachable_ind
           (fun w => exists rest,
              blockchain w = createGenesisBlock :: rest /\ Forall records_success rest)).
  - exists []. split; [reflexivity|constructor].
  - intros r w (rest & Hchain & Hrest).
    destruct (handle_chain r w) as [->|(block & -> & Hblock)].
    + exists rest. split; assumption.
    + exists (rest ++ [block]). split; [rewrite Hchain; reflexivity|].
      apply Forall_app. split; [exact Hrest|]. constructor; [exact Hblock|constructor].
Qed.

End RecordFacts.

(* ===================================================================== *)
(** * The marketplace across requests                                     *)
(* ===================================================================== *)

Section MarketFacts.
Context `{Hasher}.

Lemma api_buy_credit_settles env buyer listingId w l buyerUser :
  buyer <> "" -> listingId <> "" ->
  listings (database w) !! listingId = Some l ->
  status l = verified ->
  users (database w) !! buyer = Some buyerUser ->
  database (snd (api_buy_credit env (mkBuyCreditBody (Some buyer) (Some listingId)) w))
  = mkDatabase (settle buyer (seller l) (amount l) (users (database w)))
               (delete listingId (listings (database w))) /\
  exists block,
    blockchain (snd (api_buy_credit env (mkBuyCreditBody (Some buyer) (Some listingId)) w))
    = blockchain w ++ [block].
Proof.
  intros Hbuyer Hlisting Hl Hstatus Hbu.
  unfold api_buy_credit; simpl.
  rewrite (proj2 (falsy_string_false buyer) Hbuyer).
  rewrite (proj2 (falsy_string_false listingId) Hlisting). simpl.
  rewrite (purchaseCredit_success buyer listingId (database w) l buyerUser) by assumption.
  simpl. unfold getUser; simpl.
  destruct (settle _ _ _ _ !! buyer); [|split; [reflexivity|eauto]].
  destruct (settle _ _ _ _ !! seller l); split; try reflexivity; eauto.
Qed.

(** X25. What a decided listing does to the marketplace, when its
    identifier is new: committed, the marketplace offers what it offered
    and the new item, with the seller, amount, price and time of the
    request; failed, it offers what it offered. *)
Theorem marketplace_after_listing vote commit env name a p w user :
  name <> "" -> falsy_number a = false -> falsy_number p = false ->
  users (database w) !! name = Some user ->
  role user = "seller" ->
  listings (database w) !! uuid env = None ->
  let w' :=
    snd (api_list_credit_with vote commit env
           (mkListCreditBody (Some name) (Some a) (Some p)) w) in
  forall item,
    item ∈ api_marketplace w' <->
    item ∈ api_marketplace w \/
    (success (decision vote commit env name a p) = true /\
     item = mkMarketItem (uuid env) name a p (clock env 0)).
Proof.
  intros Hname Ha Hp Huser Hrole Hfresh w' item. subst w'.
  rewrite (api_list_credit_accepted vote commit env name a p w user) by assumption.
  cbn [snd]. unfold api_marketplace.
  rewrite !elem_of_getMarketplace.
  destruct (decision vote commit env name a p) as [tx|reason].
  - destruct (list_credit_callback_committed env name a p w user tx Huser)
      as (block & messages & -> & _).
    simpl. split.
    + intros (key & l & Hl & Hstatus & ->). rewrite lookup_insert in Hl.
      case_decide as Hkey.
      * injection Hl as <-. right. split; reflexivity.
      * left. eauto.
    + intros [(key & l & Hl & Hstatus & ->)|[_ ->]].
      * exists key, l. rewrite lookup_insert_ne by congruence. eauto.
      * exists (uuid env), (set_status verified (proposed env name a p)).
        rewrite lookup_insert_eq. repeat split.
  - rewrite list_credit_callback_aborted. simpl. split.
    + intros (key & l & Hl & Hstatus & ->). rewrite lookup_insert in Hl.
      case_decide as Hkey.
      * injection Hl as <-. discriminate.
      * left. eauto.
    + intros [(key & l & Hl & Hstatus & ->)|[Hno _]]; [|discriminate].
      exists key, l. rewrite lookup_insert_ne by congruence. eauto.
Qed.

(** X26. What a purchase does to the marketplace, listings being stored
    under their identifiers: it offers what it offered, less the item
    sold. *)
Theorem marketplace_after_purchase env buyer listingId w l buyerUser :
  buyer <> "" -> listingId <> "" ->
  ids_are_keys (database w) ->
  listings (database w) !! listingId = Some l ->
  status l = verified ->
  users (database w) !! buyer = Some buyerUser ->
  let w' :=
    snd (api_buy_credit env (mkBuyCreditBody (Some buyer) (Some listingId)) w) in
  forall item,
    item ∈ api_marketplace w' <->
    item ∈ api_marketplace w /\ item_id item <> listingId.
Proof.
  intros Hbuyer Hlisting Hkeys Hl Hstatus Hbu w' item. subst w'.
  unfold api_marketplace.
  destruct (api_buy_credit_settles env buyer listingId w l buyerUser) as [-> _];
    try assumption.
  rewrite !elem_of_getMarketplace. simpl. split.
  - intros (key & l' & Hl' & Hst & ->). rewrite lookup_delete in Hl'.
    case_decide as Hkey; [discriminate|].
    split; [eauto|]. simpl. rewrite (Hkeys key l' Hl'). congruence.
  - intros [(key & l' & Hl' & Hst & ->) Hid]. simpl in Hid.
    rewrite (Hkeys key l' Hl') in Hid.
    exists key, l'. rewrite lookup_delete_ne by congruence. eauto.
Qed.

(** X27. A listing is sold once: after a purchase that settled, another
    request to buy the same listing, by anyone, is answered with 400,
    "Listing not found", and changes nothing. *)
Theorem listing_sold_once env env' buyer other listingId w l buyerUser :
  buyer <> "" -> listingId <> "" -> other <> "" ->
  listings (database w) !! listingId = Some l ->
  status l = verified ->
  users (database w) !! buyer = Some buyerUser ->
  let w' :=
    snd (api_buy_credit env (mkBuyCreditBody (Some buyer) (Some listingId)) w) in
  api_buy_credit env' (mkBuyCreditBody (Some other) (Some listingId)) w'
  = (mkResponse 400 false "Listing not found" None, w').
Proof.
  intros Hbuyer Hlisting Hother Hl Hstatus Hbu w'. subst w'.
  destruct (api_buy_credit_settles env buyer listingId w l buyerUser)
    as [Hdb _]; try assumption.
  set (w' := snd (api_buy_credit env _ w)) in *.
  unfold api_buy_credit at 1; simpl.
  rewrite (proj2 (falsy_string_false other) Hother).
  rewrite (proj2 (falsy_string_false listingId) Hlisting). simpl.
  unfold purchaseCredit. rewrite Hdb. simpl. rewrite lookup_delete_eq.
  rewrite <- Hdb. rewrite set_database_same. reflexivity.
Qed.

End MarketFacts.

(* ===================================================================== *)
(** * The theorems at work                                                *)
(* ===================================================================== *)

(** From here on the hasher is the small one of the fixtures. *)
#[local] Existing Instance toyHasher.

Lemma oneListing_reachable : reachable (H := toyHasher) oneListing.
Proof. eexists. reflexivity. Qed.


(** [issuance_aborted] on the same request with four NO votes. *)
Lemma issuance_aborted_witness :
  let w' :=
    snd (api_list_credit (H := toyHasher) (testEnv "L1" allNo)
           (mkListCreditBody (Some "seller1") (Some 10%Q) (Some (5 # 2)%Q)) new_World) in
  users (database w') !! "seller1" = Some (seller1 0) /\
  listings (database w') !! "L1"
  = Some (mkListing "L1" "seller1" 10 (5 # 2) failed (testClock 0)) /\
  blockchain w' = new_Blockchain /\
  (forall item, item ∈ api_marketplace w' -> item_id item <> "L1").
Proof.
  destruct (issuance_aborted (H := toyHasher)
              (simulateNodeVote allNo) (simulateNodeCommit allNo)
              (testEnv "L1" allNo) "seller1" 10 (5 # 2) new_World (seller1 0))
    as (_ & Hbalance & Hlisting & Hchain & Hmarket).
  - discriminate.
  - reflexivity.
  - reflexivity.
  - vm_compute; reflexivity.
  - reflexivity.
  - intros key l Hl. simpl in Hl. rewrite lookup_empty in Hl. discriminate.
  - vm_compute; reflexivity.
  - split; [exact Hbalance|]. split; [exact Hlisting|].
    split; [exact Hchain|exact Hmarket].
Defined.


(** [purchase_rejected] on the three failures: an unknown listing, a
    listing that failed verification, an unknown buyer. *)
Lemma purchase_rejected_witness :
  let failedListing :=
    run (H := toyHasher) [listRequest "L1" "seller1" 5 1 allNo] in
  snd (api_buy_credit (H := toyHasher) (testEnv "" allYes)
         (mkBuyCreditBody (Some "buyer1") (Some "L2")) oneListing) = oneListing /\
  snd (api_buy_credit (H := toyHasher) (testEnv "" allYes)
         (mkBuyCreditBody (Some "buyer1") (Some "L1")) failedListing) = failedListing /\
  snd (api_buy_credit (H := toyHasher) (testEnv "" allYes)
         (mkBuyCreditBody (Some "nobody") (Some "L1")) oneListing) = oneListing.
Proof.
  intros failedListing.
  split; [|split].
  - apply (purchase_rejected (H := toyHasher) (testEnv "" allYes)
             (mkBuyCreditBody (Some "buyer1") (Some "L2")) "buyer1" "L2" oneListing);
      [reflexivity|reflexivity|].
    left. vm_compute; reflexivity.
  - apply (purchase_rejected (H := toyHasher) (testEnv "" allYes)
             (mkBuyCreditBody (Some "buyer1") (Some "L1")) "buyer1" "L1" failedListing);
      [reflexivity|reflexivity|].
    right; left. exists (mkListing "L1" "seller1" 5 1 failed (testClock 0)).
    split; [vm_compute; reflexivity|discriminate].
  - apply (purchase_rejected (H := toyHasher) (testEnv "" allYes)
             (mkBuyCreditBody (Some "nobody") (Some "L1")) "nobody" "L1" oneListing);
      [reflexivity|reflexivity|].
    right; right. vm_compute; reflexivity.
Defined.


(** [appended_chain_verifies] on the chain of two appended blocks. *)
Lemma appended_chain_verifies_witness :
  let chain :=
    snd (addBlock (H := toyHasher) "t2" (carbon_credit_purchase "L1" "buyer1" "seller1" 5 1 "t2")
           (snd (addBlock (H := toyHasher) "t1"
                   (carbon_credit_listing "L1" "seller1" 5 1 "t1" verified)
                   new_Blockchain))) in
  appended (H := toyHasher) chain /\
  length chain = 3%nat /\
  verify (H := toyHasher) chain = None.
Proof.
  intros chain.
  assert (appended (H := toyHasher) chain) as Hchain
    by (apply appended_add, appended_add, appended_new).
  split; [exact Hchain|]. split; [reflexivity|].
  apply (appended_chain_verifies (H := toyHasher) chain Hchain).
Defined.

(** [verify] does find a break: with the payload of block 1 rewritten,
    the stored hash no longer is the digest of the block. *)
Example verify_finds_tampering :
  let chain := blockchain oneListing in
  let forged :=
    alter (fun b =>
             mkBlock (timestamp b)
                     (carbon_credit_purchase "L1" "buyer1" "seller1" 500 1 "t")
                     (previousHash b) (hash b) (nonce b))
          1%nat chain in
  verify (H := toyHasher) chain = None /\ verify (H := toyHasher) forged = Some 1%nat.
Proof. split; vm_compute; reflexivity. Qed.

(* ===================================================================== *)
(** * The further theorems at work                                        *)
(* ===================================================================== *)

(** [register_then_login] when carol registers on the initial server. *)
Lemma register_then_login_witness :
  res_status (fst (api_register carol new_World)) = 200%nat /\
  api_login (mkLoginBody (Some "carol") (Some "secret")) (snd (api_register carol new_World))
  = user_json 200 "carol" "buyer" 0.
Proof.
  assert (res_status (fst (api_register carol new_World)) = 200%nat) as Hok
    by (vm_compute; reflexivity).
  split; [exact Hok|].
  apply (register_then_login "carol" "secret" "buyer" new_World Hok).
Defined.

(** [login_checks_password] for seller1 with the right and a wrong
    password. *)
Lemma login_checks_password_witness :
  api_login (mkLoginBody (Some "seller1") (Some "password123")) new_World
  = user_json 200 "seller1" "seller" 0 /\
  api_login (mkLoginBody (Some "seller1") (Some "guess")) new_World
  = user_error 401 "Invalid credentials".
Proof.
  split.
  - destruct (login_checks_password "seller1" "password123" new_World)
      as [Hright _]; [discriminate|discriminate|].
    apply (Hright (seller1 0)); [vm_compute; reflexivity|reflexivity].
  - destruct (login_checks_password "seller1" "guess" new_World)
      as [_ Hwrong]; [discriminate|discriminate|].
    apply Hwrong.
    right. exists (seller1 0). split; [vm_compute; reflexivity|discriminate].
Defined.



(** [marketplace_exact] on the world with one listing. *)
Lemma marketplace_exact_witness :
  ids_are_keys (database oneListing) /\
  NoDup (item_id <$> getMarketplace (database oneListing)) /\
  market_item listingL1 ∈ getMarketplace (database oneListing).
Proof.
  assert (ids_are_keys (database oneListing)) as Hkeys
    by (apply reachable_ids_are_keys; exact oneListing_reachable).
  split; [exact Hkeys|]. split.
  - apply (marketplace_exact (database oneListing)). exact Hkeys.
  - apply (marketplace_exact (database oneListing)).
    exists "L1", listingL1.
    split; [vm_compute; reflexivity|]. split; reflexivity.
Defined.

(** [unanimity_decides] for the four validators and for none. *)
Lemma unanimity_decides_witness :
  fst (startConsensus new_PBFT voteYes voteYes tt (fun r => r) 0)
  = consensus_success tt /\
  fst (startConsensus new_PBFT voteNo voteYes tt (fun r => r) 0)
  = consensus_failure "Prepare phase failed" /\
  fst (startConsensus noValidators voteNo voteNo tt (fun r => r) 0)
  = consensus_success tt.
Proof.
  assert (always true (@voteYes unit)) as Hyes by (intros ? ? ?; reflexivity).
  assert (always false (@voteNo unit)) as Hno by (intros ? ? ?; reflexivity).
  split; [|split].
  - destruct (unanimity_decides new_PBFT (@voteYes unit) voteYes tt (fun r => r) 0)
      as (_ & Hcommit & _).
    exact (Hcommit Hyes Hyes).
  - destruct (unanimity_decides new_PBFT (@voteNo unit) voteYes tt (fun r => r) 0)
      as (_ & _ & Habort & _).
    apply Habort; [discriminate|exact Hno].
  - destruct (unanimity_decides noValidators (@voteNo unit) voteNo tt (fun r => r) 0)
      as (_ & _ & _ & Hnone).
    apply Hnone. reflexivity.
Defined.

(** [rejected_request_changes_nothing] on a request to buy a listing
    that does not exist. *)
Lemma rejected_request_changes_nothing_witness :
  res_status (fst (handle (buyRequest "buyer1" "L9") oneListing)) = 400%nat /\
  snd (handle (buyRequest "buyer1" "L9") oneListing) = oneListing.
Proof.
  assert (res_status (fst (handle (buyRequest "buyer1" "L9") oneListing)) = 400%nat)
    as Hrejected by (vm_compute; reflexivity).
  split; [exact Hrejected|].
  apply (rejected_request_changes_nothing _ _ Hrejected).
Defined.

(** [only_sellers_list] when buyer1 asks to list. *)
Lemma only_sellers_list_witness :
  (exists u, users (database new_World) !! "buyer1" = Some u /\ role u <> "seller") /\
  snd (api_list_credit (testEnv "L1" allYes)
         (mkListCreditBody (Some "buyer1") (Some 5%Q) (Some 1%Q)) new_World)
  = new_World.
Proof.
  assert (exists u, users (database new_World) !! "buyer1" = Some u /\ role u <> "seller")
    as Hbuyer.
  { exists (buyer1 0). split; [vm_compute; reflexivity|discriminate]. }
  split; [exact Hbuyer|].
  apply (only_sellers_list (testEnv "L1" allYes) "buyer1" (Some 5%Q) (Some 1%Q) new_World).
  right. exact Hbuyer.
Defined.

(** [accounts_persist] for seller1 over a listing and its purchase. *)
Lemma accounts_persist_witness :
  exists b,
    api_login (mkLoginBody (Some "seller1") (Some "password123"))
      (run_from new_World
         [listRequest "L1" "seller1" 5 1 allYes; buyRequest "buyer1" "L1"])
    = user_json 200 "seller1" "seller" b.
Proof.
  destruct (accounts_persist
              [listRequest "L1" "seller1" 5 1 allYes; buyRequest "buyer1" "L1"]
              new_World "seller1" (seller1 0))
    as (b & _ & Hlogin).
  - discriminate.
  - discriminate.
  - vm_compute; reflexivity.
  - exists b. exact Hlogin.
Defined.

(** [reachable_accounts_wellformed] for seller1 after a listing. *)
Lemma reachable_accounts_wellformed_witness :
  reachable oneListing /\
  users (database oneListing) !! "seller1" = Some (seller1 5) /\
  (role (seller1 5) = "buyer" \/ role (seller1 5) = "seller").
Proof.
  assert (users (database oneListing) !! "seller1" = Some (seller1 5)) as Hu
    by (vm_compute; reflexivity).
  split; [exact oneListing_reachable|]. split; [exact Hu|].
  apply (reachable_accounts_wellformed oneListing "seller1" (seller1 5)
           oneListing_reachable Hu).
Defined.

(** [reachable_listings_decided] for the listing of seller1. *)
Lemma reachable_listings_decided_witness :
  listings (database oneListing) !! "L1" = Some listingL1 /\
  status listingL1 <> pending.
Proof.
  assert (listings (database oneListing) !! "L1" = Some listingL1) as Hl
    by (vm_compute; reflexivity).
  split; [exact Hl|].
  apply (reachable_listings_decided oneListing "L1" listingL1 oneListing_reachable Hl).
Defined.

(** [listing_lifecycle] for the verified listing of seller1 under a
    registration. *)
Lemma listing_lifecycle_witness :
  listings (database oneListing) !! "L1" = Some listingL1 /\
  ~ reuses "L1" (POST_register carol) /\
  (listings (database (snd (handle (POST_register carol) oneListing))) !! "L1"
   = Some listingL1 \/
   (listings (database (snd (handle (POST_register carol) oneListing))) !! "L1" = None /\
    exists env buyer,
      POST_register carol
      = POST_buy_credit env (mkBuyCreditBody (Some buyer) (Some "L1")))).
Proof.
  assert (listings (database oneListing) !! "L1" = Some listingL1) as Hl
    by (vm_compute; reflexivity).
  assert (~ reuses "L1" (POST_register carol)) as Hfresh by (intros []).
  split; [exact Hl|]. split; [exact Hfresh|].
  apply (listing_lifecycle (POST_register carol) oneListing "L1" listingL1 Hl Hfresh).
  reflexivity.
Defined.

(** [whole_balances_backed_by_ledger] after one listing, which a purchase
    may follow. *)
Lemma whole_balances_backed_by_ledger_witness :
  let before := [listRequest "L1" "seller1" 5 1 allYes] in
  let after := [buyRequest "buyer1" "L1"] in
  Forall asks_whole (before ++ after) /\
  (totalAsked (before ++ after) <= maxExact)%Q /\
  (totalBalance (users (database (run before))) == totalIssued (blockchain (run before)))%Q.
Proof.
  intros before after.
  assert (Forall asks_whole (before ++ after)) as Hasks.
  { repeat constructor. }
  assert (totalAsked (before ++ after) <= maxExact)%Q as Hbound.
  { vm_compute. discriminate. }
  split; [exact Hasks|]. split; [exact Hbound|].
  destruct (whole_balances_backed_by_ledger before after Hasks Hbound) as [Hbacked _].
  exact Hbacked.
Defined.



(** [deliver_reaches_open] on an open and a closing socket. *)
Lemma deliver_reaches_open_witness :
  deliver [user_balance_update "seller1" 5] twoSockets !! 1%nat
  = Some (mkSocket OPEN [user_balance_update "seller1" 5]) /\
  deliver [user_balance_update "seller1" 5] twoSockets !! 2%nat
  = Some (mkSocket CLOSING []) /\
  deliver [user_balance_update "seller1" 5] twoSockets !! 3%nat = None.
Proof.
  destruct (deliver_reaches_open [user_balance_update "seller1" 5] twoSockets new_World)
    as (Hsome & Hnone & _).
  split; [|split].
  - apply (Hsome 1%nat (mkSocket OPEN [])). vm_compute; reflexivity.
  - apply (Hsome 2%nat (mkSocket CLOSING [])). vm_compute; reflexivity.
  - apply Hnone. vm_compute; reflexivity.
Defined.


(** [page_listing_is_accepted] on the listing of 5 credits at price 1
    that seller1 types into the page. *)
Lemma page_listing_is_accepted_witness :
  listCredits (Some sellerSession) (Some 5%Q) (Some 1%Q) = fetch fiveCredits /\
  res_status (fst (api_list_credit (testEnv "L1" allYes) fiveCredits new_World)) = 200%nat /\
  exists l,
    listings (database (snd (api_list_credit (testEnv "L1" allYes) fiveCredits new_World)))
      !! "L1" = Some l /\
    (1 <= amount l)%Q.
Proof.
  assert (listCredits (Some sellerSession) (Some 5%Q) (Some 1%Q) = fetch fiveCredits)
    as Hsent by reflexivity.
  split; [exact Hsent|].
  destruct page_listing_is_accepted as [_ Haccepted].
  destruct (Haccepted (testEnv "L1" allYes) new_World sellerSession (Some 5%Q) (Some 1%Q)
              fiveCredits (seller1 0) Hsent)
    as (Hstatus & _ & _ & l & Hl & _ & _ & _ & Ha & _).
  - discriminate.
  - vm_compute; reflexivity.
  - reflexivity.
  - split; [exact Hstatus|]. exists l. split; [exact Hl|exact Ha].
Defined.


(** [reconnection_backoff] on three closes, an open and four closes. *)
Lemma reconnection_backoff_witness :
  let events := [closed; closed; closed; opened; closed; closed; closed; closed] in
  (0 <= 5)%nat /\
  (snd (reconnections events 0) <= 5)%nat /\
  Forall (fun d => 1000 <= d <= 16000)%Z (fst (reconnections events 0)).
Proof.
  intros events.
  destruct reconnection_backoff as [Hbounds _].
  destruct (Hbounds events 0%nat) as [Hdelays Hfinal].
  split; [lia|]. split; [apply Hfinal; lia|exact Hdelays].
Defined.

(** [chain_records_successes] after one listing. *)
Lemma chain_records_successes_witness :
  reachable oneListing /\
  exists rest,
    blockchain oneListing = createGenesisBlock :: rest /\ Forall records_success rest.
Proof.
  split; [exact oneListing_reachable|].
  destruct (chain_records_successes (H := toyHasher)) as [_ Hreach].
  apply Hreach. exact oneListing_reachable.
Defined.

(** [marketplace_after_listing] for the first listing of seller1. *)
Lemma marketplace_after_listing_witness :
  listings (database new_World) !! "L1" = None /\
  mkMarketItem "L1" "seller1" 5 1 (testClock 0)
  ∈ api_marketplace (snd (api_list_credit (testEnv "L1" allYes) fiveCredits new_World)).
Proof.
  assert (listings (database new_World) !! "L1" = None) as Hfresh
    by (vm_compute; reflexivity).
  split; [exact Hfresh|].
  assert (users (database new_World) !! "seller1" = Some (seller1 0)) as Hu
    by (vm_compute; reflexivity).
  apply (marketplace_after_listing
           (simulateNodeVote allYes) (simulateNodeCommit allYes)
           (testEnv "L1" allYes) "seller1" 5 1 new_World (seller1 0)
           ltac:(discriminate) eq_refl eq_refl Hu eq_refl Hfresh).
  right. split; [vm_compute; reflexivity|reflexivity].
Defined.

(** [marketplace_after_purchase] when buyer1 buys the one listing. *)
Lemma marketplace_after_purchase_witness :
  ids_are_keys (database oneListing) /\
  forall item,
    item ∈ api_marketplace (snd (api_buy_credit (testEnv "" allYes) buyL1 oneListing)) ->
    item_id item <> "L1".
Proof.
  assert (ids_are_keys (database oneListing)) as Hkeys
    by (apply reachable_ids_are_keys; exact oneListing_reachable).
  split; [exact Hkeys|].
  intros item Hitem.
  assert (listings (database oneListing) !! "L1" = Some listingL1) as Hl
    by (vm_compute; reflexivity).
  assert (users (database oneListing) !! "buyer1" = Some (buyer1 0)) as Hu
    by (vm_compute; reflexivity).
  apply (marketplace_after_purchase (testEnv "" allYes) "buyer1" "L1" oneListing
           listingL1 (buyer1 0) ltac:(discriminate) ltac:(discriminate) Hkeys Hl
           eq_refl Hu) in Hitem.
  exact (proj2 Hitem).
Defined.

(** [listing_sold_once] when seller1 tries to buy what buyer1 bought. *)
Lemma listing_sold_once_witness :
  let w' := snd (api_buy_credit (testEnv "" allYes) buyL1 oneListing) in
  api_buy_credit (testEnv "" allYes) (mkBuyCreditBody (Some "seller1") (Some "L1")) w'
  = (mkResponse 400 false "Listing not found" None, w').
Proof.
  apply (listing_sold_once (testEnv "" allYes) (testEnv "" allYes) "buyer1" "seller1"
           "L1" oneListing listingL1 (buyer1 0));
    try discriminate; try reflexivity; vm_compute; reflexivity.
Defined.

(** [whole_amounts_keep_balances_nonneg] on a listing and its purchase,
    after which buyer1 holds 5. *)
Lemma whole_amounts_keep_balances_nonneg_witness :
  let before := [listRequest "L1" "seller1" 5 1 allYes; buyRequest "buyer1" "L1"] in
  Forall asks_whole (before ++ []) /\
  (totalAsked (before ++ []) <= maxExact)%Q /\
  users (database (run before)) !! "buyer1" = Some (buyer1 5) /\
  (0 <= balance (buyer1 5))%Q /\ (balance (buyer1 5) <= maxExact)%Q.
Proof.
  intros before.
  assert (Forall asks_whole (before ++ [])) as Hasks.
  { repeat constructor. }
  assert (totalAsked (before ++ []) <= maxExact)%Q as Hbound.
  { vm_compute. discriminate. }
  assert (users (database (run before)) !! "buyer1" = Some (buyer1 5)) as Hu
    by (vm_compute; reflexivity).
  split; [exact Hasks|]. split; [exact Hbound|]. split; [exact Hu|].
  destruct (whole_amounts_keep_balances_nonneg before [] "buyer1" (buyer1 5)
              Hasks Hbound Hu) as (_ & Hlow & Hhigh & _).
  split; [exact Hlow|exact Hhigh].
Defined.
